(* ===== verification/_CoqProject ===== *)
-Q . S2P
Prelude.v
Schmitt.v
RangeWindow.v
Filter.v
Sensor.v
TriggerRace.v
ScaleSpeed.v
TransitSpec.v
Speedometer.v
System.v
TransitRefinement.v
Timeouts.v
