(* ===== verification/Prelude.v ===== *)
(** * TrainSpeedometer: a verification development

    The program (twrackers/TrainSpeedometer, an Arduino library) measures
    the scale speed of a model train passing two VL6180X proximity
    sensors 127 mm apart.  Its parts, leaves first, and how they interact:

    - [Filter<T>] (src/Filter.h): moving average over the last [nsamps]
      samples, in a heap buffer shifted down in place by a pointer loop.
    - [SchmittTrigger<T>] (src/SchmittTrigger.h): a boolean with
      hysteresis around a reference value.
    - [RangeWindow<T>] (src/RangeWindow.h): two Schmitt triggers at the
      edges of a band; true when the value is between them.
    - [Sensor] (src/Sensor.h, src/Sensor.cpp): one VL6180X channel.  Its
      ready flag is a global ([readyA]/[readyB] in src/Speedometer.cpp)
      set by an interrupt routine and reached through a pointer; every
      reading passes through a [Filter<uint32_t>] of ten samples.
    - [Speedometer] (src/Speedometer.h, src/Speedometer.cpp): the six-state
      machine run by [update()] on every real-time tick.  It triggers both
      sensors, reads them when both are ready, evaluates its one
      [RangeWindow<uint8_t>] on each distance, times the interval between
      the two channels' detections and converts it to a speed that a
      reader takes with [isUpdated()]/[getSpeed()].

    Files (in dependency order) and what they model:

    - [Prelude] (this file): [wrap w z = z mod 2^w] for unsigned C
      arithmetic with the notations [-u], [+u] in [tsp_scope]; sums of
      lists; [star] of a step relation and [star_invariant]; the hint
      databases [tsp] and [tsp_rw]; the tactics [zbool] and [split_ifs].
    - [Schmitt] (Module [Schmitt]): record [SchmittTrigger], constructor
      [make], method [f] returning the new object and the result.
    - [RangeWindow] (Module [RangeWindow]): record [RangeWindow],
      constructor [make] (edges stored as uint8_t), method [within]; the
      invariant [wf] (edges ordered, high trigger set only with the low).
    - [Filter] (Module [Filter]): record [FilterT], [make], the loop
      [filter_loop] over an stdpp list with [<[d:=v]>] writes and [!!]
      reads, the method [filter] ([None] for undefined behaviour: access
      outside the buffer or [nsamps = 0]); reference routine [push_ref],
      [average], [ref_run].
    - [Sensor] (Module [Sensor]): the globals [Globals] with [isr_A],
      [isr_B]; the pointer [m_ready] as a [flag_ref] naming the global it
      aliases; [begin] as the ordered chain [begin_checks] of driver
      status checks with early return; [trigger], [is_ready],
      [get_distance].  Driver answers are inputs.
    - [TriggerRace] (Module [TriggerRace]): [Sensor::trigger] as its
      list of statements [trigger_body] run one at a time by
      [exec_tstmt], and [trigger_isr k f], the call with an interrupt
      routine firing before statement [k].
    - [ScaleSpeed] (Module [ScaleSpeed]): [E_Scale], [calcScaleSpeed] over
      exact rationals, with +inf for the unguarded division by zero.
    - [TransitSpec] (Module [TransitSpec]): the transit timer's contract
      as an abstract machine [spec_lstep] (idle, an interval opened by one
      channel at a time, a pending report, busy) over labelled ticks and
      reads; the interface [TransitTimer] (a class: state, calls,
      abstraction, labels) with its refinement law [TransitTimerOk], and
      the client lemmas proved against the interface only.
    - [Speedometer] (Module [Speedometer]): the fields as record
      [Speedometer]; the whole state ([System]: object, globals, both
      sensors, LED); [update] = tick gate, [trigger_phase] (lines 80-112),
      [fsm_step] (lines 118-316) dispatching on [m_state] to one
      definition per branch ([step_clear], [step_senseA], [step_senseB],
      [step_updated], [step_active], [step_clearing]), [led_on]; readers,
      setters, [begin].
    - [System] (Module [System]): the running sketch as events (ticks,
      interrupts, reader and setter calls), [exec], the step relations
      ([step]; [vstep] with the chip's range contract; [tstep] with
      uint32_t [millis()]), reachability and invariants; the sketch's
      event sequences [cycle] and [passage] used by witnesses.
    - [TransitRefinement] (Module [TransitRefinement]): the instance of
      [TransitTimer] for the program: abstraction [abs], labels [label],
      one refinement lemma per branch of the state machine, [exec_refines].
    - [Timeouts] (Module [Timeouts]): ticks every [dt] ms as a list of
      wrapped [millis()] values, [fsm_ticks], and the deadline argument
      for the return to Clear; schedules of ticks with their detections,
      [fsm_trace].

    What the theorems show (claim ids in the doc comments):

    - State machine ([Speedometer]): every branch of [fsm_step] — opening
      an interval on a single detection, rejecting a double detection,
      measuring the true interval across a [millis()] wrap-around, the
      second-sensor and settle timeouts, holding in Updated until the
      flag is consumed; the tick gate makes [update] a no-op; readers
      consume the flag once; [begin]'s result is inverted.
    - Contract ([TransitRefinement]): every run of the program is a run
      of the abstract contract, and a speed the reader takes is
      [calcScaleSpeed] of the interval between a tick where one channel
      alone detected and a later tick where the other did.
    - Whole program ([System]): the invariant of all reachable
      interleavings (flag raised only in Updated, LED lit exactly while
      timing); the uint32_t typing of all reachable states with any
      measurements; safety (no undefined behaviour once a window is set);
      the interrupt routines' flags round trip through the sensors'
      pointers; nothing is measured until an interrupt arrives.  Error
      paths for every state: without a window, [update] is undefined
      exactly on the ticks that read the sensors; with the one shared
      window, B's detection in the high edge's dead band is decided by
      A's reading alone; a missing reading (cast to 255) is a detection
      exactly when the window reaches within its hysteresis of 255 and
      the last value was not above it.
    - Interrupts inside a call ([TriggerRace]): the atomic [trigger] is
      exact, and for the other sensor's interrupt anywhere in the body;
      an interrupt of the sensor's own flag arriving after the clear or
      after the start is never lost.
    - Termination and liveness ([Timeouts]): with no detection and no
      pending report the machine returns to Clear within a stated number
      of ticks; a second detection within the timeout is always measured
      as the true interval; both across a wrap-around of [millis()].
    - Leaves: the Schmitt trigger's three regions and its memory of the
      last decisive input; the window's band and invariant, and the
      window whose low edge wraps around below 0, which never detects;
      the filter loop equals the reference routine (with the wrapped
      uint32_t sum), runs keep the last [nsamps] samples, constant input
      is a fixed point, the zeroed buffer biases the first [nsamps]
      outputs; the sensor's [trigger] and [begin] error paths; the speed
      formula.

    Bounds and time: [millis()] and time marks are uint32_t, modelled as
    [Z] with every subtraction wrapped by [wrap 32]; the interval theorems
    hold for any true duration below 2^32 ms, and the termination theorem
    for ticks within 2^32 ms of the time mark (with ticks every 10 ms a
    lone detection is cleared within 4700 ticks, about 47 s).  Filter sums
    are uint32_t and wrap; with ten samples of at most 255 mm they never
    do.  There is no fuel: loops are structural ([filter_loop] on the
    count) and runs are finite event or tick lists.  [double] is modelled
    by rationals (rounding is not modelled).  The base class
    [StateMachine] (external library) is the boolean [gate] of each tick;
    the VL6180X driver is its answers.

    Not modelled, and why: pin set-up ([pinMode]), the LED pin write
    beyond its level, and Serial tracing (compiled out, [TRACE = 0]) are
    output the program never reads back; the board's
    [digitalPinToInterrupt] is a parameter of the wiring theorem.  The
    base class [StateMachine] and the VL6180X driver are external
    libraries (src/ST_VL6180X.h only includes the driver's headers): the
    tick gate, the driver's status codes and its measurements are inputs.
    [Speedometer::begin] only calls the sensors' [begin], whose effect is
    on the chip, so it changes no state of the model; its result is
    [Speedometer.begin] (the two calls talk to different chips, so the
    order C++ leaves unspecified does not matter).  [Speedometer::within] is declared but never
    defined.  Calls other than [trigger] read or write the ready flags
    at most once, so running them atomically between interrupts loses
    no interleaving; [TriggerRace] checks this for [trigger], the one
    call that tests and then clears a flag. *)

From Stdlib Require Import ZArith Lia List.
Import ListNotations.

Declare Scope tsp_scope.
Delimit Scope tsp_scope with tsp.
Open Scope Z_scope.

(** ** Unsigned machine integers *)

(** The value an unsigned [w]-bit variable holds after an assignment of
    the mathematical integer [z]: C's conversion to an unsigned type. *)
Definition wrap (w z : Z) : Z := z mod 2 ^ w.

Abbreviation u32 := (wrap 32).
Abbreviation u8 := (wrap 8).

(** uint32_t subtraction and addition, as C evaluates them. *)
Notation "a -u b" := (wrap 32 (a - b)) (at level 50, left associativity) : tsp_scope.
Notation "a +u b" := (wrap 32 (a + b)) (at level 50, left associativity) : tsp_scope.

Definition is_uint (w z : Z) : bool := (0 <=? z) && (z <? 2 ^ w).

Lemma wrap_range (w z : Z) : 0 <= w -> 0 <= wrap w z < 2 ^ w.
Proof. intros Hw. unfold wrap. apply Z.mod_pos_bound. lia. Qed.

Lemma wrap_small (w z : Z) : 0 <= z < 2 ^ w -> wrap w z = z.
Proof. intros Hz. unfold wrap. apply Z.mod_small. exact Hz. Qed.

Lemma wrap_idem (w z : Z) : 0 <= w -> wrap w (wrap w z) = wrap w z.
Proof. intros Hw. apply wrap_small, wrap_range, Hw. Qed.

Lemma wrap_add_wrap_l (w a b : Z) : 0 <= w -> wrap w (wrap w a + b) = wrap w (a + b).
Proof. intros Hw. unfold wrap. rewrite Z.add_mod_idemp_l; [reflexivity | lia]. Qed.

(** A negative value of at most [w] bits wraps to [2^w] above it. *)
Lemma wrap_neg (w z : Z) : - 2 ^ w <= z < 0 -> wrap w z = 2 ^ w + z.
Proof.
  intros Hz. unfold wrap.
  rewrite <- (Z.mod_add z 1 (2 ^ w)) by lia.
  rewrite Z.mod_small by lia. lia.
Qed.

Lemma is_uint_spec (w z : Z) : is_uint w z = true <-> 0 <= z < 2 ^ w.
Proof. unfold is_uint. rewrite Bool.andb_true_iff, Z.leb_le, Z.ltb_lt. tauto. Qed.

(** Elapsed time measured by subtracting two wrapped time stamps is the
    true duration whenever that duration fits in [w] bits, even when the
    clock has wrapped in between. *)
Lemma wrap_sub_elapsed (w t d : Z) :
  0 <= w -> 0 <= d < 2 ^ w -> wrap w (wrap w (t + d) - wrap w t) = d.
Proof.
  intros Hw Hd. unfold wrap.
  rewrite Zminus_mod_idemp_l, Zminus_mod_idemp_r.
  replace (t + d - t) with d by lia. apply Z.mod_small, Hd.
Qed.

(** The same with both time stamps given as true times. *)
Lemma wrap_sub_wrap (w a b : Z) :
  0 <= w -> 0 <= a - b < 2 ^ w -> wrap w (wrap w a - wrap w b) = a - b.
Proof.
  intros Hw Hd. rewrite <- (wrap_sub_elapsed w b (a - b)) by assumption.
  do 2 f_equal. f_equal. lia.
Qed.

(** ** Sums of lists *)

Fixpoint zsum (l : list Z) : Z :=
  match l with
  | [] => 0
  | x :: l' => x + zsum l'
  end.

Lemma zsum_app (l1 l2 : list Z) : zsum (l1 ++ l2) = zsum l1 + zsum l2.
Proof. induction l1 as [|x l1 IH]; simpl; lia. Qed.

Lemma zsum_repeat (v : Z) (n : nat) : zsum (repeat v n) = Z.of_nat n * v.
Proof. induction n as [|n IH]; [reflexivity|]. rewrite Nat2Z.inj_succ. simpl. lia. Qed.

Lemma zsum_bounds (lo hi : Z) (l : list Z) :
  Forall (fun x => lo <= x <= hi) l ->
  Z.of_nat (length l) * lo <= zsum l <= Z.of_nat (length l) * hi.
Proof. induction 1 as [|x l Hx _ IH]; simpl length; rewrite ?Nat2Z.inj_succ; simpl zsum; lia. Qed.

(** ** Runs of a step relation *)

Section Star.
Context {S : Type} (R : S -> S -> Prop).

Inductive star : S -> S -> Prop :=
| star_refl s : star s s
| star_step s1 s2 s3 : R s1 s2 -> star s2 s3 -> star s1 s3.

Lemma star_trans s1 s2 s3 : star s1 s2 -> star s2 s3 -> star s1 s3.
Proof. induction 1; eauto using star. Qed.

Lemma star_one s1 s2 : R s1 s2 -> star s1 s2.
Proof. eauto using star. Qed.

(** An invariant preserved by every step holds along every run. *)
Lemma star_invariant (P : S -> Prop) :
  (forall s s', P s -> R s s' -> P s') ->
  forall s s', star s s' -> P s -> P s'.
Proof. intros Hstep s s' Hrun. induction Hrun; eauto. Qed.
End Star.

(** ** Automation *)

Create HintDb tsp discriminated.
#[export] Hint Resolve wrap_range wrap_small wrap_idem : tsp.
#[export] Hint Constructors star : tsp.

Create Rewrite HintDb tsp_rw.
#[export] Hint Rewrite wrap_idem using lia : tsp_rw.
#[export] Hint Rewrite zsum_app zsum_repeat : tsp_rw.

(** Turn the boolean comparisons of Z that the code's conditions become
    into propositions, in hypotheses and goal. *)
Ltac zbool :=
  repeat match goal with
  | H : (_ <? _) = true |- _ => apply Z.ltb_lt in H
  | H : (_ <? _) = false |- _ => apply Z.ltb_ge in H
  | H : (_ <=? _) = true |- _ => apply Z.leb_le in H
  | H : (_ <=? _) = false |- _ => apply Z.leb_gt in H
  | H : (_ =? _) = true |- _ => apply Z.eqb_eq in H
  | H : (_ =? _) = false |- _ => apply Z.eqb_neq in H
  end.

(** Case on every [if] of the goal, remembering the test. *)
Ltac split_ifs :=
  repeat match goal with
  | |- context [if ?b then _ else _] =>
      let E := fresh "E" in destruct b eqn:E
  end; zbool.
