(* ===== verification/Schmitt.v ===== *)
(** * SchmittTrigger<T> (src/SchmittTrigger.h)

    The trigger keeps a reference [m_ref], a hysteresis half-width [m_hy]
    (both converted to [long] by the constructor) and a boolean
    [m_state].  [f] sets the state when the value is above
    [m_ref + m_hy], clears it when below [m_ref - m_hy], and otherwise
    leaves it alone.  The method mutates the object; here it returns the
    new object with the result.  The template is instantiated with
    [uint8_t] only (through [RangeWindow<uint8_t>]), so [(long) val] is
    the value itself and the [long] sums, at most 510, cannot overflow:
    the model compares mathematical integers. *)

From Stdlib Require Import ZArith Lia Bool List.
From S2P Require Import Prelude.
Import ListNotations.
Open Scope Z_scope.

Module Schmitt.

Record SchmittTrigger := mkSchmitt {
  m_ref : Z;     (* const long m_ref *)
  m_hy : Z;      (* const long m_hy *)
  m_state : bool (* bool m_state *)
}.

(** [SchmittTrigger(reference, hysteresis, initial = false)]. *)
Definition make (reference hysteresis : Z) (initial : bool) : SchmittTrigger :=
  {| m_ref := reference; m_hy := hysteresis; m_state := initial |}.

(** [bool f(const T val)]: the new object and the returned state. *)
Definition f (s : SchmittTrigger) (val : Z) : SchmittTrigger * bool :=
  let st :=
    if m_ref s + m_hy s <? val then true
    else if val <? m_ref s - m_hy s then false
    else m_state s in
  ({| m_ref := m_ref s; m_hy := m_hy s; m_state := st |}, st).

(** Feeding a sequence of values, one call of [f] each. *)
Fixpoint run (s : SchmittTrigger) (vals : list Z) : SchmittTrigger :=
  match vals with
  | [] => s
  | v :: vs => run (fst (f s v)) vs
  end.

(** The object with its state replaced. *)
Definition set_state (s : SchmittTrigger) (b : bool) : SchmittTrigger :=
  {| m_ref := m_ref s; m_hy := m_hy s; m_state := b |}.

(** A value is decisive when it lies outside the dead band. *)
Definition decisive (s : SchmittTrigger) (v : Z) : bool :=
  (m_ref s + m_hy s <? v) || (v <? m_ref s - m_hy s).

(** The state a decisive value forces. *)
Definition forced (s : SchmittTrigger) (v : Z) : bool := m_ref s + m_hy s <? v.

(** The last decisive value of a sequence, if any. *)
Fixpoint last_decisive (s : SchmittTrigger) (vals : list Z) : option Z :=
  match vals with
  | [] => None
  | v :: vs =>
      match last_decisive s vs with
      | Some w => Some w
      | None => if decisive s v then Some v else None
      end
  end.

(** ** Basic facts *)

Lemma f_keeps_config (s : SchmittTrigger) (v : Z) :
  m_ref (fst (f s v)) = m_ref s /\ m_hy (fst (f s v)) = m_hy s.
Proof. split; reflexivity. Qed.

(** [last_decisive] depends only on the configuration. *)
Lemma last_decisive_config (s1 s2 : SchmittTrigger) (vs : list Z) :
  m_ref s1 = m_ref s2 -> m_hy s1 = m_hy s2 ->
  last_decisive s1 vs = last_decisive s2 vs.
Proof.
  intros Hr Hy. induction vs as [|v vs IH]; simpl; [reflexivity|].
  rewrite IH. unfold decisive. rewrite Hr, Hy. reflexivity.
Qed.

(** With a non-negative hysteresis the state after [f] is the forced
    state for a decisive value and the old state otherwise. *)
Lemma f_state_decisive (s : SchmittTrigger) (v : Z) :
  0 <= m_hy s ->
  m_state (fst (f s v)) = if decisive s v then forced s v else m_state s.
Proof.
  intros Hh. unfold f, decisive, forced; simpl.
  destruct (m_ref s + m_hy s <? v) eqn:E1, (v <? m_ref s - m_hy s) eqn:E2;
    simpl; zbool; try reflexivity; lia.
Qed.

(** ** Properties *)

(** C26: the three regions of [SchmittTrigger::f], for any prior state:
    above [m_ref + m_hy] the result is true, below [m_ref - m_hy] (with a
    non-negative hysteresis) it is false, and in the closed dead band the
    object and the returned state are unchanged. *)
Theorem f_regions (s : SchmittTrigger) (v : Z) :
  (m_ref s + m_hy s < v -> f s v = (set_state s true, true)) /\
  (0 <= m_hy s -> v < m_ref s - m_hy s -> f s v = (set_state s false, false)) /\
  (m_ref s - m_hy s <= v <= m_ref s + m_hy s -> f s v = (s, m_state s)).
Proof.
  destruct s as [r h st]; unfold f, set_state; simpl.
  split; [|split]; intros; split_ifs; try reflexivity; lia.
Qed.

Lemma f_regions_witness :
  f (make 100 5 false) 106 = (set_state (make 100 5 false) true, true) /\
  f (make 100 5 true) 94 = (set_state (make 100 5 true) false, false) /\
  f (make 100 5 true) 95 = (make 100 5 true, true).
Proof.
  split; [|split].
  - apply (proj1 (f_regions (make 100 5 false) 106)). simpl. lia.
  - apply (proj1 (proj2 (f_regions (make 100 5 true) 94))); simpl; lia.
  - apply (proj2 (proj2 (f_regions (make 100 5 true) 95))). simpl. lia.
Defined.

(** C27: after any sequence of calls, the state is the one forced by the
    last value outside the dead band, or the initial state when every
    value fell inside it: the trigger remembers only its last decisive
    input. *)
Theorem run_last_decisive (s : SchmittTrigger) (vs : list Z) :
  0 <= m_hy s ->
  m_state (run s vs) =
    match last_decisive s vs with
    | Some v => forced s v
    | None => m_state s
    end.
Proof.
  revert s; induction vs as [|v vs IH]; intros s Hh; [reflexivity|].
  pose proof (f_keeps_config s v) as [Hr Hy].
  change (run s (v :: vs)) with (run (fst (f s v)) vs).
  rewrite IH by (rewrite Hy; exact Hh).
  cbn [last_decisive].
  rewrite (last_decisive_config (fst (f s v)) s vs Hr Hy).
  destruct (last_decisive s vs) as [w|] eqn:Ew.
  - unfold forced; rewrite Hr, Hy; reflexivity.
  - rewrite f_state_decisive by exact Hh. destruct (decisive s v); reflexivity.
Qed.

Lemma run_last_decisive_witness :
  0 <= m_hy (make 100 5 false) /\
  m_state (run (make 100 5 false) [120; 101; 99; 95]) = true.
Proof.
  split; [simpl; lia|].
  rewrite (run_last_decisive (make 100 5 false) [120; 101; 99; 95]) by (simpl; lia).
  reflexivity.
Defined.

End Schmitt.
