(* ===== verification/RangeWindow.v ===== *)
(** * RangeWindow<T> (src/RangeWindow.h)

    A window holds two Schmitt triggers, one at [center - hwidth] and one
    at [center + hwidth], sharing one hysteresis.  [within(val)] calls
    [f] on the low trigger, then on the high trigger, and returns
    [lo && !hi].  The pointers to the triggers are [const] in the source,
    but [f] mutates them (the Arduino toolchain builds with -fpermissive),
    so the model threads the new triggers through.  The only
    instantiation is [RangeWindow<uint8_t>]: the constructor's three
    arguments are [uint8_t] parameters, so the caller's values are
    converted on the call; the edges, computed in [int], are converted
    back to [uint8_t] when passed to the trigger's constructor.  The model
    writes both conversions [u8]. *)

From Stdlib Require Import ZArith Lia Bool List.
From S2P Require Import Prelude Schmitt.
Import ListNotations.
Open Scope Z_scope.

Module RangeWindow.
Import Schmitt.

Record RangeWindow := mkWindow {
  m_schmitt_lo : SchmittTrigger;  (* low end of range *)
  m_schmitt_hi : SchmittTrigger   (* high end of range *)
}.

(** [RangeWindow<uint8_t>(const T center, const T hwidth, const T hysteresis)]. *)
Definition make (center hwidth hysteresis : Z) : RangeWindow :=
  {| m_schmitt_lo := Schmitt.make (u8 (u8 center - u8 hwidth)) (u8 hysteresis) false;
     m_schmitt_hi := Schmitt.make (u8 (u8 center + u8 hwidth)) (u8 hysteresis) false |}.

(** [bool within(const T val)]. *)
Definition within (w : RangeWindow) (val : Z) : RangeWindow * bool :=
  let (lo_obj, lo) := Schmitt.f (m_schmitt_lo w) val in
  let (hi_obj, hi) := Schmitt.f (m_schmitt_hi w) val in
  ({| m_schmitt_lo := lo_obj; m_schmitt_hi := hi_obj |}, lo && negb hi).

(** The window's invariant: the edges are ordered, the hysteresis is
    shared, and the high trigger is set only when the low one is, so the
    pair of states is one of below (false, false), inside (true, false)
    and above (true, true). *)
Definition wf (w : RangeWindow) : Prop :=
  m_ref (m_schmitt_lo w) <= m_ref (m_schmitt_hi w) /\
  m_hy (m_schmitt_lo w) = m_hy (m_schmitt_hi w) /\
  (m_state (m_schmitt_hi w) = true -> m_state (m_schmitt_lo w) = true).

Definition wfb (w : RangeWindow) : bool :=
  (m_ref (m_schmitt_lo w) <=? m_ref (m_schmitt_hi w)) &&
  (m_hy (m_schmitt_lo w) =? m_hy (m_schmitt_hi w)) &&
  implb (m_state (m_schmitt_hi w)) (m_state (m_schmitt_lo w)).

(** ** Lemmas *)

Lemma wfb_spec (w : RangeWindow) : wfb w = true <-> wf w.
Proof.
  unfold wfb, wf. rewrite !Bool.andb_true_iff, Z.leb_le, Z.eqb_eq.
  destruct (m_state (m_schmitt_hi w)), (m_state (m_schmitt_lo w)); simpl;
    intuition congruence.
Qed.

(** ** Properties *)

(** C25: [within] preserves the window invariant: whatever the value,
    the high trigger cannot end up set while the low trigger is clear. *)
Theorem within_preserves_wf (w : RangeWindow) (v : Z) :
  wf w -> wf (fst (within w v)).
Proof.
  destruct w as [[rl hl sl] [rh hh sh]]; unfold wf, within, f; simpl.
  intros (Hr & Hh & Hs); subst hh.
  split; [lia|split; [reflexivity|]].
  split_ifs; intros; try discriminate; try reflexivity; try lia; auto.
Qed.

Lemma within_preserves_wf_witness :
  wf (make 120 40 5) /\ wf (fst (within (make 120 40 5) 90)).
Proof.
  assert (H : wf (make 120 40 5)) by (apply wfb_spec; reflexivity).
  split; [exact H | apply (within_preserves_wf (make 120 40 5) 90 H)].
Defined.

(** The constructor establishes the invariant when the edges computed
    in [int] do not wrap around when stored as [uint8_t]. *)
Lemma make_wf (c hw hy : Z) :
  0 <= u8 c - u8 hw -> u8 c + u8 hw < 256 -> wf (make c hw hy).
Proof.
  intros H1 H2. unfold wf, make; simpl.
  pose proof (wrap_range 8 hw ltac:(lia)).
  rewrite !(wrap_small 8 (_ - _)), !(wrap_small 8 (_ + _)) by (change (2 ^ 8) with 256; lia).
  repeat split; lia.
Qed.

(** [within] keeps the edges and the hysteresis of both triggers. *)
Lemma within_keeps_edges (w : RangeWindow) (v : Z) :
  let w' := fst (within w v) in
  m_ref (m_schmitt_lo w') = m_ref (m_schmitt_lo w) /\ m_hy (m_schmitt_lo w') = m_hy (m_schmitt_lo w) /\
  m_ref (m_schmitt_hi w') = m_ref (m_schmitt_hi w) /\ m_hy (m_schmitt_hi w') = m_hy (m_schmitt_hi w).
Proof. destruct w as [[rl hl sl] [rh hh sh]]; repeat split. Qed.

(** C24: the band of [within] for any prior state of the window, with a
    non-negative hysteresis [h] and the edges [lo], [hi] held by the
    triggers: a value strictly between [lo + h] and [hi - h] is reported
    inside; a value below [lo - h] or above [hi + h] is reported outside;
    and whenever [within] answers true the value lies in
    [[lo - h, hi + h]]. *)
Theorem within_band (w : RangeWindow) (v : Z) :
  let lo := m_ref (m_schmitt_lo w) in
  let hi := m_ref (m_schmitt_hi w) in
  let h := m_hy (m_schmitt_lo w) in
  0 <= h -> m_hy (m_schmitt_hi w) = h ->
  (lo + h < v < hi - h -> snd (within w v) = true) /\
  (v < lo - h \/ hi + h < v -> snd (within w v) = false) /\
  (snd (within w v) = true -> lo - h <= v <= hi + h).
Proof.
  destruct w as [[rl hl sl] [rh hh sh]]; unfold within, f; simpl.
  intros Hh Hhh; subst hh.
  split; [|split]; split_ifs; simpl; intros; try reflexivity;
    try discriminate; lia.
Qed.

Lemma within_band_witness :
  0 <= m_hy (m_schmitt_lo (make 120 40 5)) /\
  snd (within (make 120 40 5) 120) = true /\
  snd (within (make 120 40 5) 200) = false.
Proof.
  split; [exact (proj1 (wrap_range 8 5 ltac:(lia)))|].
  set (w := mkWindow (Schmitt.make 80 5 false) (Schmitt.make 160 5 false)).
  change (make 120 40 5) with w.
  pose proof (within_band w 120) as H1.
  pose proof (within_band w 200) as H2.
  simpl in H1, H2.
  split; [apply H1; lia | apply H2; lia].
Defined.

(** C35: a window whose low side reaches below 0 never detects
    anything.  The constructor computes [center - hwidth] in [int] and
    stores it in [uint8_t] without a range check: when the centre is
    below the half-width the low edge wraps to [256 + center - hwidth],
    above the high edge [center + hwidth].  If moreover the half-width
    and the hysteresis sum to less than 128, the two dead bands do not
    meet, so every window with the edges and hysteresis of that
    constructor's result, whatever the states of its triggers (and so
    after any sequence of calls, which keep the edges), answers false for
    every value: a window the caller meant as [[0, center + hwidth]] is
    empty. *)
Theorem make_low_wrap_empty (c hw hy : Z) (w : RangeWindow) (v : Z) :
  u8 c < u8 hw -> u8 hw + u8 hy < 128 ->
  m_ref (m_schmitt_lo w) = m_ref (m_schmitt_lo (make c hw hy)) ->
  m_ref (m_schmitt_hi w) = m_ref (m_schmitt_hi (make c hw hy)) ->
  m_hy (m_schmitt_lo w) = u8 hy -> m_hy (m_schmitt_hi w) = u8 hy ->
  snd (within w v) = false.
Proof.
  intros Hc Hh Hl Hu Hyl Hyh.
  pose proof (wrap_range 8 c ltac:(lia)). pose proof (wrap_range 8 hy ltac:(lia)).
  unfold make in Hl, Hu; cbn [m_schmitt_lo m_schmitt_hi Schmitt.make m_ref] in Hl, Hu.
  rewrite wrap_neg in Hl by lia. rewrite wrap_small in Hu by lia.
  destruct w as [[rl hl sl] [rh hh sh]]; cbn [m_schmitt_lo m_schmitt_hi m_ref m_hy] in *.
  subst; unfold within, f; cbn [m_ref m_hy m_state fst snd].
  change (2 ^ 8) with 256 in *. split_ifs; try reflexivity;
    cbn [m_ref m_hy m_schmitt_lo m_schmitt_hi] in *; lia.
Qed.

Lemma make_low_wrap_empty_witness :
  u8 10 < u8 20 /\ u8 20 + u8 5 < 128 /\
  snd (within (make 10 20 5) 30) = false /\
  snd (within (fst (within (make 10 20 5) 255)) 30) = false.
Proof.
  assert (H1 : u8 10 < u8 20) by (vm_compute; reflexivity).
  assert (H2 : u8 20 + u8 5 < 128) by (vm_compute; reflexivity).
  split; [exact H1 | split; [exact H2 | split]].
  - exact (make_low_wrap_empty 10 20 5 (make 10 20 5) 30 H1 H2 eq_refl eq_refl eq_refl eq_refl).
  - destruct (within_keeps_edges (make 10 20 5) 255) as (E1 & E2 & E3 & E4).
    exact (make_low_wrap_empty 10 20 5 _ 30 H1 H2 E1 E3 E2 E4).
Defined.

End RangeWindow.
