(* ===== verification/Filter.v ===== *)
(** * Filter<T> (src/Filter.h)

    The filter owns [m_nsamps] and a heap buffer of [m_nsamps] samples,
    cleared by the constructor.  [filter(samp)] walks the buffer with a
    destination pointer [dptr] and a source pointer [sptr = dptr + 1]:
    each slot but the last receives its right neighbour, the last receives
    [samp], and the running [sum] (of type [T]) adds each stored value;
    the result is [sum / m_nsamps].  The only instantiation is
    [Filter<uint32_t>] (in [Sensor]), so samples and the sum are uint32_t
    and the sum wraps modulo 2^32.

    [Filter.filter_loop] follows the [while (n--)] loop statement by
    statement over the buffer as an stdpp list updated in place
    ([<[d := v]>]); a read ([buf !! sp]) or write outside the buffer,
    and the division by [m_nsamps = 0], are undefined behaviour and give
    [None].  [Filter.push_ref] is the reference routine (drop the oldest
    sample, append the newest); [filter_equiv] shows the loop computes it. *)

From stdpp Require Import base list.
From Stdlib Require Import ZArith Lia.
From S2P Require Import Prelude.
Open Scope Z_scope.

Module Filter.

Record FilterT := mkFilter {
  m_nsamps : nat;       (* const size_t m_nsamps *)
  m_buffer : list Z     (* T* m_buffer, m_nsamps uint32_t cells *)
}.

(** [Filter(nsamps)]: allocate and clear the buffer. *)
Definition make (nsamps : nat) : FilterT :=
  {| m_nsamps := nsamps; m_buffer := replicate nsamps 0 |}.

(** The loop [while (n--) { *dptr = (n == 0) ? samp : *sptr++;
    sum += *dptr++; }]: [n] is the count before the test, [d] and [sp]
    the indices of [dptr] and [sptr]. *)
Fixpoint filter_loop (n : nat) (buf : list Z) (d sp : nat) (samp sum : Z)
    : option (list Z * Z) :=
  match n with
  | O => Some (buf, sum)
  | S n' =>
      let src := if Nat.eqb n' 0 then Some (samp, sp)
                 else match buf !! sp with
                      | Some v => Some (v, S sp)
                      | None => None
                      end in
      match src with
      | None => None
      | Some (v, sp') =>
          if Nat.ltb d (length buf)
          then filter_loop n' (<[d := v]> buf) (S d) sp' samp (u32 (sum + v))
          else None
      end
  end.

(** [T filter(const T samp)]: the new filter and the returned average. *)
Definition filter (fl : FilterT) (samp : Z) : option (FilterT * Z) :=
  match filter_loop (m_nsamps fl) (m_buffer fl) 0 1 samp 0 with
  | None => None
  | Some (buf, sum) =>
      if Nat.eqb (m_nsamps fl) 0 then None
      else Some (mkFilter (m_nsamps fl) buf, sum / Z.of_nat (m_nsamps fl))
  end.

(** Feeding samples one call at a time; [None] if a call is undefined. *)
Fixpoint filter_run (fl : FilterT) (samps : list Z) : option (FilterT * list Z) :=
  match samps with
  | [] => Some (fl, [])
  | x :: xs =>
      match filter fl x with
      | None => None
      | Some (fl', out) =>
          match filter_run fl' xs with
          | None => None
          | Some (fl'', outs) => Some (fl'', out :: outs)
          end
      end
  end.

(** Reference: the buffer after one push, and the average it holds. *)
Definition push_ref (buf : list Z) (samp : Z) : list Z := tail buf ++ [samp].

Definition average (buf : list Z) : Z := u32 (zsum buf) / Z.of_nat (length buf).

(** The last [n] elements of a list. *)
Definition lastn {A} (n : nat) (l : list A) : list A := drop (length l - n) l.

(** ** The reference run *)

(** Pushing samples one by one into the reference buffer: the final
    buffer and the averages returned along the way. *)
Fixpoint ref_run (buf : list Z) (xs : list Z) : list Z * list Z :=
  match xs with
  | [] => (buf, [])
  | x :: xs' =>
      let buf' := push_ref buf x in
      let r := ref_run buf' xs' in
      (fst r, average buf' :: snd r)
  end.

(** ** The loop *)

Lemma u32_sum_step (sum v rest : Z) : u32 (u32 (sum + v) + rest) = u32 (sum + (v + rest)).
Proof. rewrite wrap_add_wrap_l by lia. f_equal. lia. Qed.

(** Loop invariant: with [k >= 1] iterations left at slot [d], the slots
    before [d] already hold their shifted values, and the loop ends with
    the tail of the buffer shifted down and [samp] in the last slot. *)
Lemma filter_loop_shift (k d : nat) (buf : list Z) (samp sum : Z) :
  (1 <= k)%nat -> (d + k)%nat = length buf ->
  filter_loop k buf d (S d) samp sum =
    Some (take d buf ++ drop (S d) buf ++ [samp],
          u32 (sum + (zsum (drop (S d) buf) + samp))).
Proof.
  revert d buf sum; induction k as [|k IH]; intros d buf sum Hk Hlen; [lia|].
  cbn [filter_loop].
  destruct (Nat.eqb_spec k 0) as [->|Hk0].
  - rewrite (proj2 (Nat.ltb_lt _ _)) by lia.
    rewrite insert_take_drop by lia.
    rewrite (drop_ge buf (S d)) by lia. simpl. rewrite Z.add_0_l. reflexivity.
  - destruct (lookup_lt_is_Some_2 buf (S d)) as [x Hx]; [lia|].
    rewrite Hx, (proj2 (Nat.ltb_lt _ _)) by lia.
    rewrite IH by (rewrite ?length_insert; lia).
    rewrite insert_take_drop by lia.
    rewrite (drop_S buf x (S d) Hx).
    set (R := drop (S (S d)) buf).
    assert (Hd : length (take d buf) = d) by (rewrite length_take; lia).
    assert (E1 : take (S d) (take d buf ++ x :: x :: R) = take d buf ++ [x]).
    { replace (take d buf ++ x :: x :: R) with ((take d buf ++ [x]) ++ x :: R)
        by (rewrite <- app_assoc; reflexivity).
      apply take_app_length'. rewrite length_app, Hd. simpl. lia. }
    assert (E2 : drop (S (S d)) (take d buf ++ x :: x :: R) = R).
    { replace (take d buf ++ x :: x :: R) with ((take d buf ++ [x; x]) ++ R)
        by (rewrite <- app_assoc; reflexivity).
      apply drop_app_length'. rewrite length_app, Hd. simpl. lia. }
    rewrite E1, E2.
    rewrite u32_sum_step, <- app_assoc. simpl.
    replace (sum + (x + (zsum R + samp))) with (sum + (x + zsum R + samp)) by lia.
    reflexivity.
Qed.

Lemma length_push_ref (buf : list Z) (x : Z) :
  buf <> [] -> length (push_ref buf x) = length buf.
Proof. destruct buf; [congruence|]. unfold push_ref. simpl. rewrite length_app. simpl. lia. Qed.

Lemma length_lastn {A} (n : nat) (l : list A) :
  (n <= length l)%nat -> length (lastn n l) = n.
Proof. intros H. unfold lastn. rewrite length_drop. lia. Qed.

Lemma push_ref_lastn (buf : list Z) (x : Z) :
  buf <> [] -> push_ref buf x = lastn (length buf) (buf ++ [x]).
Proof.
  intros Hb. unfold lastn, push_ref. rewrite length_app. simpl.
  replace (length buf + 1 - length buf)%nat with 1%nat by lia.
  destruct buf; [congruence|]. reflexivity.
Qed.

Lemma lastn_lastn_app {A} (n : nat) (l xs : list A) :
  (n <= length l)%nat -> lastn n (lastn n l ++ xs) = lastn n (l ++ xs).
Proof.
  intros Hn. unfold lastn.
  rewrite <- drop_app_le by lia.
  rewrite drop_drop, length_drop, !length_app. f_equal. lia.
Qed.

(** The reference buffer after any run holds the last [length buf]
    samples of the whole history. *)
Lemma ref_run_buffer (buf xs : list Z) :
  buf <> [] -> fst (ref_run buf xs) = lastn (length buf) (buf ++ xs).
Proof.
  revert buf; induction xs as [|x xs IH]; intros buf Hb; simpl.
  - unfold lastn. rewrite app_nil_r, Nat.sub_diag. reflexivity.
  - assert (Hp : push_ref buf x <> []) by (unfold push_ref; destruct (tail buf); discriminate).
    rewrite IH by exact Hp. rewrite length_push_ref by exact Hb.
    rewrite push_ref_lastn by exact Hb.
    rewrite lastn_lastn_app by (rewrite length_app; lia).
    rewrite <- app_assoc. reflexivity.
Qed.

Lemma ref_run_last_output (buf xs : list Z) :
  buf <> [] -> xs <> [] ->
  last (snd (ref_run buf xs)) = Some (average (lastn (length buf) (buf ++ xs))).
Proof.
  revert buf; induction xs as [|x xs IH]; intros buf Hb Hx; [congruence|].
  assert (Hp : push_ref buf x <> []) by (unfold push_ref; destruct (tail buf); discriminate).
  destruct xs as [|y ys].
  - simpl. rewrite push_ref_lastn by exact Hb. reflexivity.
  - change (snd (ref_run buf (x :: y :: ys)))
      with (average (push_ref buf x) :: snd (ref_run (push_ref buf x) (y :: ys))).
    rewrite last_cons, IH by (auto || discriminate).
    rewrite length_push_ref, push_ref_lastn by exact Hb.
    rewrite lastn_lastn_app by (rewrite length_app; lia).
    rewrite <- app_assoc. reflexivity.
Qed.

(** One call of [filter] is the reference push. *)
Lemma filter_push (fl : FilterT) (samp : Z) :
  length (m_buffer fl) = m_nsamps fl -> (0 < m_nsamps fl)%nat ->
  filter fl samp =
    Some (mkFilter (m_nsamps fl) (push_ref (m_buffer fl) samp),
          average (push_ref (m_buffer fl) samp)).
Proof.
  destruct fl as [n buf]; simpl; intros Hlen Hn.
  unfold filter; simpl.
  rewrite (filter_loop_shift n 0 buf samp 0) by lia.
  destruct (Nat.eqb_spec n 0) as [->|_]; [lia|].
  unfold average. rewrite length_push_ref by (destruct buf; simpl in *; congruence || lia).
  simpl. rewrite <- Hlen. unfold push_ref. rewrite zsum_app. simpl.
  replace (zsum (tail buf) + (samp + 0)) with (0 + (zsum (tail buf) + samp)) by lia.
  destruct buf; reflexivity.
Qed.


(** A run of [filter] is the reference run. *)
Lemma filter_run_ref (fl : FilterT) (xs : list Z) :
  length (m_buffer fl) = m_nsamps fl -> (0 < m_nsamps fl)%nat ->
  filter_run fl xs =
    Some (mkFilter (m_nsamps fl) (fst (ref_run (m_buffer fl) xs)),
          snd (ref_run (m_buffer fl) xs)).
Proof.
  destruct fl as [n buf]; simpl. intros Hlen Hn.
  assert (Hb : buf <> []) by (destruct buf; simpl in *; congruence || lia).
  revert buf Hlen Hb; induction xs as [|x xs IH]; intros buf Hlen Hb; [reflexivity|].
  cbn [filter_run]. rewrite filter_push by (simpl; lia). simpl m_nsamps.
  assert (Hp : push_ref buf x <> []) by (unfold push_ref; destruct (tail buf); discriminate).
  rewrite IH by (rewrite ?length_push_ref; auto). reflexivity.
Qed.

(** ** Properties *)

(** C28: the pointer loop of [Filter::filter] computes the reference
    routine: on a buffer of [m_nsamps >= 1] cells the [while (n--)] loop
    never reads or writes outside the buffer, leaves the buffer with the
    oldest sample dropped and [samp] appended, and its running uint32_t
    sum is the wrapped sum of that buffer; the method returns that sum
    divided by [m_nsamps]. *)
Theorem filter_equiv (fl : FilterT) (samp : Z) :
  length (m_buffer fl) = m_nsamps fl -> (0 < m_nsamps fl)%nat ->
  filter_loop (m_nsamps fl) (m_buffer fl) 0 1 samp 0 =
    Some (push_ref (m_buffer fl) samp, u32 (zsum (push_ref (m_buffer fl) samp))) /\
  filter fl samp =
    Some (mkFilter (m_nsamps fl) (push_ref (m_buffer fl) samp),
          average (push_ref (m_buffer fl) samp)).
Proof.
  intros Hlen Hn. split; [|apply filter_push; assumption].
  rewrite (filter_loop_shift (m_nsamps fl) 0 (m_buffer fl) samp 0) by lia.
  unfold push_ref. rewrite zsum_app. simpl.
  replace (zsum (tail (m_buffer fl)) + (samp + 0)) with
    (0 + (zsum (tail (m_buffer fl)) + samp)) by lia.
  destruct (m_buffer fl); reflexivity.
Qed.

Lemma filter_equiv_witness :
  length (m_buffer (make 3)) = m_nsamps (make 3) /\ (0 < m_nsamps (make 3))%nat /\
  filter (mkFilter 3 [3; 6; 9]) 12 = Some (mkFilter 3 [6; 9; 12], 9).
Proof.
  split; [reflexivity|split; [simpl; lia|]].
  apply (filter_equiv (mkFilter 3 [3; 6; 9]) 12); simpl; [reflexivity | lia].
Defined.

(** C29: feeding any sequence of samples to a filter with [m_nsamps >= 1]
    cells is defined at every call, and leaves exactly the last
    [m_nsamps] samples of the history (initial buffer followed by the
    samples) in the buffer, in arrival order; the last call returns the
    uint32_t average of those samples. *)
Theorem filter_run_window (fl : FilterT) (xs : list Z) :
  length (m_buffer fl) = m_nsamps fl -> (0 < m_nsamps fl)%nat -> xs <> [] ->
  exists outs,
    filter_run fl xs =
      Some (mkFilter (m_nsamps fl) (lastn (m_nsamps fl) (m_buffer fl ++ xs)), outs) /\
    last outs = Some (average (lastn (m_nsamps fl) (m_buffer fl ++ xs))).
Proof.
  intros Hlen Hn Hxs.
  assert (Hb : m_buffer fl <> []) by (destruct (m_buffer fl); simpl in *; congruence || lia).
  exists (snd (ref_run (m_buffer fl) xs)).
  rewrite filter_run_ref, ref_run_buffer, ref_run_last_output, Hlen by assumption.
  split; reflexivity.
Qed.

Lemma filter_run_window_witness :
  exists outs,
    filter_run (make 3) [4; 5; 6; 7] = Some (mkFilter 3 [5; 6; 7], outs) /\
    last outs = Some 6.
Proof.
  destruct (filter_run_window (make 3) [4; 5; 6; 7]) as [outs [H1 H2]];
    [reflexivity | simpl; lia | discriminate |].
  exists outs. split; [exact H1 | exact H2].
Defined.

(** C30: a constant input is a fixed point of the average: after
    [m_nsamps] calls with the same sample [v], whatever the filter held
    before, the call returns [v], provided [m_nsamps * v] fits in the
    uint32_t sum. *)
Theorem filter_constant (fl : FilterT) (v : Z) :
  length (m_buffer fl) = m_nsamps fl -> (0 < m_nsamps fl)%nat ->
  0 <= v -> Z.of_nat (m_nsamps fl) * v < 2 ^ 32 ->
  exists fl' outs,
    filter_run fl (repeat v (m_nsamps fl)) = Some (fl', outs) /\ last outs = Some v.
Proof.
  intros Hlen Hn Hv Hbig.
  assert (Hb : m_buffer fl <> []) by (destruct (m_buffer fl); simpl in *; congruence || lia).
  do 2 eexists; split; [apply filter_run_ref; assumption|].
  rewrite ref_run_last_output
    by (assumption || (destruct (m_nsamps fl); [lia | discriminate])).
  rewrite Hlen.
  unfold lastn. rewrite length_app, repeat_length, Hlen.
  replace (m_nsamps fl + m_nsamps fl - m_nsamps fl)%nat with (m_nsamps fl) by lia.
  rewrite <- Hlen, drop_app_length, Hlen.
  unfold average. rewrite repeat_length, zsum_repeat, wrap_small by lia.
  f_equal. rewrite Z.mul_comm. apply Z.div_mul. lia.
Qed.

Lemma filter_constant_witness :
  exists fl' outs,
    filter_run (make 10) (repeat 200 10) = Some (fl', outs) /\ last outs = Some 200.
Proof.
  apply (filter_constant (make 10) 200); simpl; [reflexivity | lia | lia | lia].
Defined.

(** Samples bounded by [B] keep the buffer bounded by [B]. *)
Lemma push_ref_bounded (B : Z) (buf : list Z) (samp : Z) :
  Forall (fun x => 0 <= x <= B) buf -> 0 <= samp <= B ->
  Forall (fun x => 0 <= x <= B) (push_ref buf samp).
Proof.
  intros Hb Hs. unfold push_ref. apply Forall_app; split; [|constructor; auto].
  destruct Hb; simpl; [constructor | assumption].
Qed.

(** Outputs are bounded by the inputs: when the buffer and the new
    sample lie in [[0, B]] and [m_nsamps * B] fits in uint32_t, the sum
    does not wrap, the returned average lies in [[0, B]] and so does the
    new buffer.  With the VL6180X's ranges ([B = 255]) and the sensor's
    ten samples, every filtered distance fits in a uint8_t. *)
Lemma filter_bounded (fl : FilterT) (samp B : Z) :
  length (m_buffer fl) = m_nsamps fl -> (0 < m_nsamps fl)%nat ->
  Forall (fun x => 0 <= x <= B) (m_buffer fl) -> 0 <= samp <= B ->
  Z.of_nat (m_nsamps fl) * B < 2 ^ 32 ->
  exists fl' out, filter fl samp = Some (fl', out) /\ 0 <= out <= B /\
    Forall (fun x => 0 <= x <= B) (m_buffer fl') /\
    length (m_buffer fl') = m_nsamps fl' /\ m_nsamps fl' = m_nsamps fl.
Proof.
  intros Hlen Hn Hb Hs Hbig.
  rewrite filter_push by assumption.
  pose proof (push_ref_bounded B _ _ Hb Hs) as Hp.
  assert (Hne : m_buffer fl <> []) by (destruct (m_buffer fl); simpl in *; congruence || lia).
  pose proof (length_push_ref (m_buffer fl) samp Hne) as Hl.
  do 2 eexists; split; [reflexivity|]. simpl.
  split; [|split; [exact Hp | split; [congruence | reflexivity]]].
  pose proof (zsum_bounds 0 B _ Hp) as Hz. rewrite Hl, Hlen in Hz.
  unfold average. rewrite Hl, Hlen, wrap_small by lia.
  split; [apply Z.div_pos; lia|].
  apply Z.div_le_upper_bound; lia.
Qed.

(** The uint32_t typing of the filter: whatever the samples, a buffer of
    uint32_t values and a uint32_t sample give a defined call, a uint32_t
    average (the wrapped sum divided by [m_nsamps >= 1]) and a buffer of
    uint32_t values of the same length. *)
Lemma filter_typed (fl : FilterT) (samp : Z) :
  length (m_buffer fl) = m_nsamps fl -> (0 < m_nsamps fl)%nat ->
  Forall (fun x => 0 <= x <= 2 ^ 32 - 1) (m_buffer fl) -> 0 <= samp <= 2 ^ 32 - 1 ->
  exists fl' out, filter fl samp = Some (fl', out) /\ 0 <= out <= 2 ^ 32 - 1 /\
    Forall (fun x => 0 <= x <= 2 ^ 32 - 1) (m_buffer fl') /\
    length (m_buffer fl') = m_nsamps fl' /\ m_nsamps fl' = m_nsamps fl.
Proof.
  intros Hlen Hn Hb Hs.
  rewrite filter_push by assumption.
  assert (Hne : m_buffer fl <> []) by (destruct (m_buffer fl); simpl in *; congruence || lia).
  pose proof (length_push_ref (m_buffer fl) samp Hne) as Hl.
  do 2 eexists; split; [reflexivity|]. simpl.
  split; [|split; [apply push_ref_bounded; assumption | split; [congruence | reflexivity]]].
  unfold average. rewrite Hl, Hlen.
  pose proof (wrap_range 32 (zsum (push_ref (m_buffer fl) samp)) ltac:(lia)) as Hw.
  split; [apply Z.div_pos; lia|].
  apply Z.div_le_upper_bound; nia.
Qed.

Lemma zsum_replicate (m : nat) (v : Z) : zsum (replicate m v) = Z.of_nat m * v.
Proof. induction m as [|m IH]; [reflexivity|]. rewrite Nat2Z.inj_succ. simpl. lia. Qed.

(** C31: the start-up bias of the zeroed buffer.  The first [k <= nsamps]
    calls of a freshly constructed filter with the same sample [d] leave
    [nsamps - k] zeros in front of the [k] samples, and the [k]-th call
    returns [k * d / nsamps], not [d]: for a bare track 200 mm away the
    sensor's first ten distances are 20, 40, ..., 200 mm, sweeping
    through every window below 200 mm. *)
Theorem filter_startup (n k : nat) (d : Z) :
  (1 <= k <= n)%nat -> 0 <= d -> Z.of_nat n * d < 2 ^ 32 ->
  exists outs,
    filter_run (make n) (repeat d k) =
      Some (mkFilter n (replicate (n - k) 0 ++ repeat d k), outs) /\
    last outs = Some (Z.of_nat k * d / Z.of_nat n).
Proof.
  intros Hk Hd Hbig.
  destruct (filter_run_window (make n) (repeat d k)) as (outs & E & L);
    [apply length_replicate | simpl; lia | destruct k; [lia | discriminate] |].
  assert (Hl : lastn n (replicate n 0 ++ repeat d k) = replicate (n - k) 0 ++ repeat d k).
  { unfold lastn. rewrite length_app, length_replicate, repeat_length.
    replace (n + k - n)%nat with k by lia.
    rewrite drop_app_le by (rewrite length_replicate; lia).
    rewrite drop_replicate. reflexivity. }
  simpl in E, L. rewrite Hl in E, L. exists outs. split; [exact E|].
  rewrite L. unfold average. f_equal.
  rewrite zsum_app, zsum_replicate, zsum_repeat, length_app, length_replicate, repeat_length.
  rewrite wrap_small by nia. f_equal; lia.
Qed.

Lemma filter_startup_witness :
  (1 <= 3 <= 10)%nat /\ 0 <= 200 /\ Z.of_nat 10 * 200 < 2 ^ 32 /\
  filter_run (make 10) (repeat 200 10) =
    Some (mkFilter 10 (repeat 200 10), [20; 40; 60; 80; 100; 120; 140; 160; 180; 200]) /\
  exists outs, filter_run (make 10) (repeat 200 3) =
      Some (mkFilter 10 (replicate 7 0 ++ repeat 200 3), outs) /\ last outs = Some 60.
Proof.
  split; [lia | split; [lia | split; [reflexivity | split; [vm_compute; reflexivity|]]]].
  exact (filter_startup 10 3 200 ltac:(lia) ltac:(lia) ltac:(reflexivity)).
Defined.

End Filter.
