(* ===== verification/Sensor.v ===== *)
(** * Sensor (src/Sensor.h, src/Sensor.cpp) and the ready flags

    Each [Sensor] wraps one VL6180X.  Its [m_ready] is a pointer to one of
    the two globals [readyA], [readyB] of src/Speedometer.cpp, which the
    interrupt routines [isr_A], [isr_B] set when the chip signals a new
    sample.  The model keeps these globals in a store [Globals] and the
    pointer as a [flag_ref] naming the global it aliases, so that the
    interrupt routine and the sensor act on the same cell.  The
    attachments of routines to external interrupts ([attachInterrupt],
    [setupInterruptHandler]) are an association list [IrqTable].

    The VL6180X driver is outside the repository: each driver call is a
    constructor of [DevCall], and what the chip answers is an input of
    the operation ([rsp] for the status codes of [begin], the return code
    of [RangeStartSingleShot], and the optional range returned by
    [RangeGetMeasurementIfReady], [Some r] when its return code is 0). *)

From stdpp Require Import base list.
From Stdlib Require Import ZArith Lia Bool.
From S2P Require Import Prelude Filter.
Open Scope Z_scope.

Module Sensor.

(** The global a sensor's [m_ready] points to. *)
Inductive flag_ref := readyA_ref | readyB_ref.

#[export] Instance flag_ref_eq_dec : EqDecision flag_ref.
Proof. solve_decision. Defined.

(** [volatile bool readyA, readyB] (src/Speedometer.cpp). *)
Record Globals := mkGlobals { readyA : bool; readyB : bool }.

Definition load (g : Globals) (p : flag_ref) : bool :=
  match p with readyA_ref => readyA g | readyB_ref => readyB g end.

Definition store (g : Globals) (p : flag_ref) (b : bool) : Globals :=
  match p with
  | readyA_ref => {| readyA := b; readyB := readyB g |}
  | readyB_ref => {| readyA := readyA g; readyB := b |}
  end.

(** [void isr_A() { readyA = true; }] and [isr_B]. *)
Definition isr_A (g : Globals) : Globals := store g readyA_ref true.
Definition isr_B (g : Globals) : Globals := store g readyB_ref true.

(** The routines that can be attached to an external interrupt. *)
Inductive Isr := isrA_fn | isrB_fn.

Definition run_isr (f : Isr) (g : Globals) : Globals :=
  match f with isrA_fn => isr_A g | isrB_fn => isr_B g end.

(** The attachments [attachInterrupt] has made, newest first: an
    external interrupt number, the routine and the mode.  A later
    attachment to the same number replaces the earlier one. *)
Definition IrqTable := list (Z * (Isr * Z)).

Definition attachInterrupt (t : IrqTable) (irq : Z) (f : Isr) (mode : Z) : IrqTable :=
  (irq, (f, mode)) :: t.

Fixpoint irq_lookup (t : IrqTable) (irq : Z) : option (Isr * Z) :=
  match t with
  | [] => None
  | (n, a) :: t' => if n =? irq then Some a else irq_lookup t' irq
  end.

(** [#define NO_READING 0xFFFFFFFFL]. *)
Definition NO_READING : Z := 4294967295.

Record Sensor := mkSensor {
  m_ready : flag_ref;        (* bool* m_ready *)
  m_addr : Z;                (* const byte m_addr *)
  m_gpio0 : Z;               (* const byte m_gpio0 *)
  m_gpio1 : Z;               (* const byte m_gpio1 *)
  m_dist : Z;                (* uint32_t m_dist *)
  m_filter : Filter.FilterT  (* Filter<uint32_t>* m_filter *)
}.

(** [Sensor(addr, ena_pin, intr_pin, ready_flag)]. *)
Definition make (addr ena_pin intr_pin : Z) (ready_flag : flag_ref) : Sensor :=
  {| m_ready := ready_flag; m_addr := addr; m_gpio0 := ena_pin;
     m_gpio1 := intr_pin; m_dist := NO_READING; m_filter := Filter.make 10 |}.

Definition set_dist (s : Sensor) (d : Z) : Sensor :=
  {| m_ready := m_ready s; m_addr := m_addr s; m_gpio0 := m_gpio0 s;
     m_gpio1 := m_gpio1 s; m_dist := d; m_filter := m_filter s |}.

Definition set_filter (s : Sensor) (fl : Filter.FilterT) : Sensor :=
  {| m_ready := m_ready s; m_addr := m_addr s; m_gpio0 := m_gpio0 s;
     m_gpio1 := m_gpio1 s; m_dist := m_dist s; m_filter := fl |}.

(** [void Sensor::setupInterruptHandler(irq_pin, irq_func, value)]:
    [attachInterrupt(digitalPinToInterrupt(irq_pin), irq_func, value)],
    with the board's pin-to-interrupt map as an argument. *)
Definition setupInterruptHandler (digitalPinToInterrupt : Z -> Z) (t : IrqTable)
    (irq_pin : Z) (irq_func : Isr) (value : Z) : IrqTable :=
  attachInterrupt t (digitalPinToInterrupt irq_pin) irq_func value.

(** Calls to the VL6180X driver. *)
Inductive DevCall :=
  | DevBegin | DevOn | InitSensor | Present | Prepare | SetupGPIO1
  | RangeConfigInterrupt | RangeSetMaxConvergenceTime | FilterSetState
  | DMaxSetState.

#[export] Instance DevCall_eq_dec : EqDecision DevCall.
Proof. solve_decision. Defined.

(** The status checks of [Sensor::begin], in order: each call and the
    status it must return. *)
Definition begin_checks : list (DevCall * Z) :=
  [(InitSensor, 0); (Present, 1); (Prepare, 0); (SetupGPIO1, 0);
   (RangeConfigInterrupt, 0); (RangeSetMaxConvergenceTime, 0);
   (FilterSetState, 0); (DMaxSetState, 0)].

(** Issue the checks in order, returning false at the first call whose
    status is not the expected one; also the calls issued. *)
Fixpoint run_checks (rsp : DevCall -> Z) (checks : list (DevCall * Z))
    : bool * list DevCall :=
  match checks with
  | [] => (true, [])
  | (c, ok) :: rest =>
      if rsp c =? ok
      then let r := run_checks rsp rest in (fst r, c :: snd r)
      else (false, [c])
  end.

(** [bool Sensor::begin()]: [begin] and [VL6180x_On] are called without
    looking at their result, then the checks. *)
Definition begin (rsp : DevCall -> Z) : bool * list DevCall :=
  let r := run_checks rsp begin_checks in (fst r, DevBegin :: DevOn :: snd r).

(** [int Sensor::trigger()]: the new globals and sensor, and the result. *)
Definition trigger (g : Globals) (s : Sensor) (start_rc : Z) : Globals * Sensor * Z :=
  if negb (load g (m_ready s)) then (g, s, -1)
  else (store g (m_ready s) false, set_dist s NO_READING, start_rc).

(** [bool Sensor::is_ready() const]. *)
Definition is_ready (g : Globals) (s : Sensor) : bool := load g (m_ready s).

(** [uint32_t Sensor::get_distance()]: [meas] is the range the driver
    returns, [None] when its return code is not 0.  [range_mm] is an
    [int32_t] converted to the filter's [uint32_t]. *)
Definition get_distance (s : Sensor) (meas : option Z) : option (Sensor * Z) :=
  match meas with
  | Some r =>
      match Filter.filter (m_filter s) (u32 r) with
      | None => None
      | Some (fl, out) => Some (set_dist (set_filter s fl) out, out)
      end
  | None => Some (s, NO_READING)
  end.

(** The sensor's invariant: its filter holds ten samples of at most
    [B] mm (the chip's maximum range), and its last distance is either a
    filtered value of at most [B] or [NO_READING]. *)
Definition wf (B : Z) (s : Sensor) : Prop :=
  Filter.m_nsamps (m_filter s) = 10%nat /\
  length (Filter.m_buffer (m_filter s)) = 10%nat /\
  Forall (fun x => 0 <= x <= B) (Filter.m_buffer (m_filter s)) /\
  (0 <= m_dist s <= B \/ m_dist s = NO_READING).

(** ** Lemmas *)

Lemma load_store_eq (g : Globals) (p : flag_ref) (b : bool) : load (store g p b) p = b.
Proof. destruct p; reflexivity. Qed.

Lemma load_store_ne (g : Globals) (p q : flag_ref) (b : bool) :
  p <> q -> load (store g p b) q = load g q.
Proof. destruct p, q; simpl; congruence. Qed.

Lemma run_checks_true (rsp : DevCall -> Z) (checks : list (DevCall * Z)) :
  fst (run_checks rsp checks) = true <-> Forall (fun co => rsp (fst co) = snd co) checks.
Proof.
  induction checks as [|[c ok] rest IH]; simpl; [split; auto|].
  destruct (Z.eqb_spec (rsp c) ok) as [E|E]; simpl.
  - rewrite IH. split; [intros H; constructor; auto | intros H; inversion H; auto].
  - split; [discriminate | intros H; inversion H; simpl in *; congruence].
Qed.

Lemma run_checks_false (rsp : DevCall -> Z) (checks : list (DevCall * Z)) :
  fst (run_checks rsp checks) = false ->
  exists pre c ok post,
    checks = pre ++ (c, ok) :: post /\
    Forall (fun co => rsp (fst co) = snd co) pre /\ rsp c <> ok /\
    snd (run_checks rsp checks) = map fst pre ++ [c].
Proof.
  induction checks as [|[c ok] rest IH]; simpl; [discriminate|].
  destruct (Z.eqb_spec (rsp c) ok) as [E|E]; simpl; intros H.
  - destruct (IH H) as (pre & c' & ok' & post & -> & Hpre & Hne & Htr).
    exists ((c, ok) :: pre), c', ok', post. rewrite Htr.
    repeat split; auto.
  - exists [], c, ok, rest. repeat split; auto.
Qed.

Lemma wf_set_dist (B : Z) (s : Sensor) (d : Z) :
  wf B s -> (0 <= d <= B \/ d = NO_READING) -> wf B (set_dist s d).
Proof. unfold wf; simpl. tauto. Qed.

(** ** Properties *)

(** C32: [Sensor::trigger] refuses (returns -1 and changes nothing) when
    the ready flag it points to is clear; otherwise it clears that flag,
    and only that flag, resets the last distance to [NO_READING] and
    returns the driver's status of [RangeStartSingleShot]. *)
Theorem trigger_spec (g : Globals) (s : Sensor) (rc : Z) :
  (load g (m_ready s) = false -> trigger g s rc = (g, s, -1)) /\
  (load g (m_ready s) = true ->
     let '(g', s', r) := trigger g s rc in
     load g' (m_ready s) = false /\
     (forall q, q <> m_ready s -> load g' q = load g q) /\
     m_dist s' = NO_READING /\ m_filter s' = m_filter s /\ r = rc).
Proof.
  unfold trigger. split; intros H; rewrite H; simpl; [reflexivity|].
  split; [apply load_store_eq|]. split; [|repeat split].
  intros q Hq. apply load_store_ne. congruence.
Qed.

Lemma trigger_spec_witness :
  load (mkGlobals true false) (m_ready (make 42 5 3 readyA_ref)) = true /\
  trigger (mkGlobals true false) (make 42 5 3 readyA_ref) 0 =
    (mkGlobals false false, make 42 5 3 readyA_ref, 0).
Proof.
  split; [reflexivity|].
  pose proof (proj2 (trigger_spec (mkGlobals true false) (make 42 5 3 readyA_ref) 0)
                eq_refl) as H.
  reflexivity.
Defined.

(** C33: [Sensor::begin] returns true exactly when every status check
    passes; when it returns false, the driver calls issued are [begin],
    [VL6180x_On] and the checks up to and including the first one that
    failed: no later configuration call is made. *)
Theorem begin_spec (rsp : DevCall -> Z) :
  (fst (begin rsp) = true <-> Forall (fun co => rsp (fst co) = snd co) begin_checks) /\
  (fst (begin rsp) = false ->
   exists pre c ok post,
     begin_checks = pre ++ (c, ok) :: post /\
     Forall (fun co => rsp (fst co) = snd co) pre /\ rsp c <> ok /\
     snd (begin rsp) = DevBegin :: DevOn :: map fst pre ++ [c]).
Proof.
  unfold begin; cbn [fst snd]. split; [apply run_checks_true|].
  intros H. destruct (run_checks_false rsp begin_checks H)
    as (pre & c & ok & post & Hs & Hpre & Hne & Htr).
  exists pre, c, ok, post. rewrite Htr. auto.
Qed.

Lemma begin_spec_witness :
  fst (begin (fun _ => 0)) = false /\
  snd (begin (fun _ => 0)) = [DevBegin; DevOn; InitSensor; Present].
Proof.
  assert (H : fst (begin (fun _ => 0)) = false) by reflexivity.
  split; [exact H|].
  destruct (proj2 (begin_spec (fun _ => 0)) H)
    as (pre & c & ok & post & Hs & _ & Hne & Htr).
  rewrite Htr.
  destruct pre as [|[c1 o1] [|[c2 o2] pre]]; simpl in Hs; inversion Hs; subst;
    simpl in *; try congruence; try reflexivity.
Defined.

(** [get_distance] on a sensor whose filter holds ten samples of at
    most [B] mm ([10 * B] fitting in uint32_t), with a measurement of at
    most [B] mm or none: the call is defined, returns either a filtered
    distance in [[0, B]] or [NO_READING] (exactly when the driver had no
    measurement), and the sensor keeps its invariant.  With the
    VL6180X's [B = 255] the distance therefore survives the [uint8_t]
    cast of [update] unchanged, except [NO_READING]. *)
Lemma get_distance_bounded (B : Z) (s : Sensor) (meas : option Z) :
  wf B s -> 10 * B < 2 ^ 32 ->
  (forall r, meas = Some r -> 0 <= r <= B) ->
  exists s' d, get_distance s meas = Some (s', d) /\ wf B s' /\
    m_ready s' = m_ready s /\
    (meas = None -> d = NO_READING) /\ (meas <> None -> 0 <= d <= B /\ m_dist s' = d).
Proof.
  intros (Hn & Hl & Hb & Hd) HB Hm. unfold get_distance.
  destruct meas as [r|].
  - destruct (Hm r eq_refl) as [Hr0 HrB].
    destruct (Filter.filter_bounded (m_filter s) (u32 r) B) as (fl & out & E & Ho & Hfb & Hfl & Hfn);
      [congruence | lia | exact Hb | rewrite wrap_small; lia | rewrite Hn; simpl; lia |].
    rewrite E. exists (set_dist (set_filter s fl) out), out.
    split; [reflexivity|]. split; [|split; [reflexivity | split; [discriminate | auto]]].
    unfold wf; simpl. rewrite Hfn, Hn in *. auto.
  - exists s, NO_READING. split; [reflexivity|]. split; [unfold wf; auto|].
    split; [reflexivity | split; [reflexivity | congruence]].
Qed.

(** The uint32_t typing of [get_distance]: on a sensor whose filter
    holds ten uint32_t samples, any measurement (converted to uint32_t by
    the assignment to [range]) gives a defined call and keeps the sensor
    typed. *)
Lemma get_distance_typed (s : Sensor) (meas : option Z) :
  wf (2 ^ 32 - 1) s ->
  exists s' d, get_distance s meas = Some (s', d) /\ wf (2 ^ 32 - 1) s' /\
    m_ready s' = m_ready s.
Proof.
  intros (Hn & Hl & Hb & Hd). unfold get_distance.
  destruct meas as [r|].
  - pose proof (wrap_range 32 r ltac:(lia)) as Hr.
    destruct (Filter.filter_typed (m_filter s) (u32 r)) as (fl & out & E & Ho & Hfb & Hfl & Hfn);
      [congruence | lia | exact Hb | lia |].
    rewrite E. exists (set_dist (set_filter s fl) out), out.
    split; [reflexivity|]. split; [|reflexivity].
    unfold wf; simpl. rewrite Hfn, Hn in *. auto.
  - exists s, NO_READING. split; [reflexivity|]. split; [unfold wf; auto | reflexivity].
Qed.

End Sensor.
