(* ===== verification/TriggerRace.v ===== *)
(** * [Sensor::trigger] statement by statement, against the interrupts

    [Sensor.trigger] treats the call as one atomic step.  On the board,
    an interrupt routine can run between any two statements of the call
    (src/Sensor.cpp, lines 91-99):

    - [if (! *m_ready) return -1;]     the test, with its early return;
    - [*m_ready = false;]              the clear of the ready flag;
    - [m_dist = NO_READING;]
    - [return m_sensor->RangeStartSingleShot();]  the start.

    [trigger_body] lists these statements, [exec_tstmt] runs one of them
    on the globals, the sensor and the return value, and [trigger_isr k f]
    runs the body with the routine [f] firing before statement [k] ([k]
    past the end: after the call).  The spec requires the flag to be
    cleared before the sensor is started again, so that no interrupt is
    lost between the read and the clear; the theorems show what the
    statement order guarantees, and that the atomic model is exact for
    the interrupt of the other sensor. *)

From stdpp Require Import base list.
From Stdlib Require Import ZArith Lia Bool.
From S2P Require Import Prelude Filter Sensor.
Open Scope Z_scope.

Module TriggerRace.
Import Sensor.

(** The statements of [Sensor::trigger]. *)
Inductive TStmt := TTest | TClear | TNoReading | TStart.

#[export] Instance TStmt_eq_dec : EqDecision TStmt.
Proof. solve_decision. Defined.

(** Lines 92-98, in order. *)
Definition trigger_body : list TStmt := [TTest; TClear; TNoReading; TStart].

(** The globals, the sensor and, once the function has returned, its
    return value. *)
Record TState := mkTState { tg : Globals; tsens : Sensor; tret : option Z }.

(** One statement; [rc] is what [RangeStartSingleShot] answers.  After a
    [return] the remaining statements do not run. *)
Definition exec_tstmt (rc : Z) (st : TState) (c : TStmt) : TState :=
  match tret st with
  | Some _ => st
  | None =>
      match c with
      | TTest =>
          if negb (load (tg st) (m_ready (tsens st)))
          then mkTState (tg st) (tsens st) (Some (-1)) else st
      | TClear => mkTState (store (tg st) (m_ready (tsens st)) false) (tsens st) None
      | TNoReading => mkTState (tg st) (set_dist (tsens st) NO_READING) None
      | TStart => mkTState (tg st) (tsens st) (Some rc)
      end
  end.

Definition run_tstmts (rc : Z) (cs : list TStmt) (st : TState) : TState :=
  fold_left (exec_tstmt rc) cs st.

(** The outcome of a call: [None] if the body fell off its end without a
    [return] (it never does). *)
Definition outcome (st : TState) : option (Globals * Sensor * Z) :=
  match tret st with Some r => Some (tg st, tsens st, r) | None => None end.

(** The call without interference. *)
Definition trigger_steps (g : Globals) (s : Sensor) (rc : Z) : option (Globals * Sensor * Z) :=
  outcome (run_tstmts rc trigger_body (mkTState g s None)).

(** The call with the interrupt routine [f] running before statement [k]. *)
Definition trigger_isr (k : nat) (f : Isr) (g : Globals) (s : Sensor) (rc : Z)
    : option (Globals * Sensor * Z) :=
  let st1 := run_tstmts rc (take k trigger_body) (mkTState g s None) in
  let st2 := mkTState (run_isr f (tg st1)) (tsens st1) (tret st1) in
  outcome (run_tstmts rc (drop k trigger_body) st2).

(** The global an interrupt routine raises. *)
Definition isr_flag (f : Isr) : flag_ref :=
  match f with isrA_fn => readyA_ref | isrB_fn => readyB_ref end.

(** The position of a statement in the body. *)
Fixpoint index_of (c : TStmt) (cs : list TStmt) : nat :=
  match cs with
  | [] => 0
  | c' :: cs' => if decide (c = c') then 0 else S (index_of c cs')
  end.

(** ** Lemmas *)

Lemma run_isr_store (f : Isr) (g : Globals) : run_isr f g = store g (isr_flag f) true.
Proof. destruct f; reflexivity. Qed.

Lemma store_store_comm (g : Globals) (p q : flag_ref) (a b : bool) :
  p <> q -> store (store g p a) q b = store (store g q b) p a.
Proof. destruct p, q; intros H; [congruence| | |congruence]; reflexivity. Qed.

Lemma store_store_same (g : Globals) (p : flag_ref) (a b : bool) :
  store (store g p a) p b = store g p b.
Proof. destruct p; reflexivity. Qed.

(** Case on the position of the interrupt: before each statement, or
    after the call. *)
Ltac isr_positions k :=
  destruct k as [|[|[|[|k]]]]; unfold trigger_isr, run_tstmts; cbn;
  rewrite ?take_nil, ?drop_nil; cbn.

(** ** Properties *)

(** C18: the atomic model of [trigger] is exact.  Run statement by
    statement without interference, the body returns what
    [Sensor.trigger] returns; and an interrupt for the other sensor's
    flag, wherever it falls in the body, has the effect of the atomic call
    followed by the routine. *)
Theorem trigger_steps_atomic (g : Globals) (s : Sensor) (rc : Z) (k : nat) (f : Isr) :
  trigger_steps g s rc = Some (Sensor.trigger g s rc) /\
  (isr_flag f <> m_ready s ->
   trigger_isr k f g s rc =
     let '(g1, s1, r) := Sensor.trigger g s rc in Some (run_isr f g1, s1, r)).
Proof.
  split.
  - unfold trigger_steps, run_tstmts, Sensor.trigger; cbn.
    destruct (load g (m_ready s)); reflexivity.
  - intros Hne. unfold Sensor.trigger.
    destruct g as [a b], f, s as [[] ad g0 g1 d fl]; cbn in Hne; try congruence;
      destruct a, b; isr_positions k; reflexivity.
Qed.

Lemma trigger_steps_atomic_witness :
  isr_flag isrB_fn <> m_ready (Sensor.make 42 5 3 readyA_ref) /\
  trigger_isr 2 isrB_fn {| readyA := true; readyB := false |} (Sensor.make 42 5 3 readyA_ref) 0 =
    Some ({| readyA := false; readyB := true |},
          set_dist (Sensor.make 42 5 3 readyA_ref) NO_READING, 0).
Proof.
  assert (H : isr_flag isrB_fn <> m_ready (Sensor.make 42 5 3 readyA_ref)) by discriminate.
  split; [exact H|].
  exact (proj2 (trigger_steps_atomic {| readyA := true; readyB := false |}
                  (Sensor.make 42 5 3 readyA_ref) 0 2 isrB_fn) H).
Defined.

(** C19: the order of the statements keeps the sensor's own interrupts.
    An interrupt of the sensor's own flag that arrives after the flag
    has been cleared, or after the measurement has been started, is still
    visible when the call returns; and the only interrupts the call
    absorbs are one arriving before the test (which the test then
    consumes to start a measurement) and one arriving while the flag was
    already raised. *)
Theorem trigger_isr_kept (g : Globals) (s : Sensor) (rc : Z) (k : nat) (f : Isr) :
  isr_flag f = m_ready s ->
  ((Nat.min (index_of TClear trigger_body) (index_of TStart trigger_body) < k)%nat ->
   exists g' s' r, trigger_isr k f g s rc = Some (g', s', r) /\ load g' (m_ready s) = true) /\
  (forall g' s' r, trigger_isr k f g s rc = Some (g', s', r) -> load g' (m_ready s) = false ->
   k = 0%nat \/ load g (m_ready s) = true).
Proof.
  intros Hf.
  destruct g as [a b], f, s as [[] ad g0 g1 d fl]; cbn in Hf; try congruence;
    destruct a, b; isr_positions k;
    (split; [intros Hk; vm_compute in Hk; try lia; do 3 eexists; split; reflexivity
            | intros g' s' r H; injection H as <- _ _; cbn; auto]).
Qed.

Lemma trigger_isr_kept_witness :
  isr_flag isrA_fn = m_ready (Sensor.make 42 5 3 readyA_ref) /\
  exists g' s' r, trigger_isr 2 isrA_fn {| readyA := true; readyB := false |}
                    (Sensor.make 42 5 3 readyA_ref) 0 = Some (g', s', r) /\
                  load g' readyA_ref = true.
Proof.
  assert (H : isr_flag isrA_fn = m_ready (Sensor.make 42 5 3 readyA_ref)) by reflexivity.
  split; [exact H|].
  exact (proj1 (trigger_isr_kept {| readyA := true; readyB := false |}
                  (Sensor.make 42 5 3 readyA_ref) 0 2 isrA_fn H) ltac:(vm_compute; lia)).
Defined.

End TriggerRace.
