(* ===== verification/ScaleSpeed.v ===== *)
(** * Speed conversion (src/Speedometer.cpp, [calcScaleSpeed])

    [calcScaleSpeed(dt_msec)] divides the sensor spacing (mm) by the
    elapsed time (ms), giving m/s, multiplies by the model scale, by 3.6
    (km/h) and, in imperial mode, by [MI_PER_KM].  The computation is in
    [double]; the model computes the exact rational value that the
    double operations round, and keeps the one case where IEEE arithmetic
    leaves the rationals: [127.0 / 0.0 = +inf], after which every
    product with a positive factor stays [+inf]. *)

From Stdlib Require Import ZArith QArith Lia.
From S2P Require Import Prelude.
Open Scope Z_scope.

Module ScaleSpeed.

(** [enum E_Scale { eUK = 148, eJP = 150, eUS = 160 }]. *)
Inductive E_Scale := eUK | eJP | eUS.

Definition scale_value (s : E_Scale) : Z :=
  match s with eUK => 148 | eJP => 150 | eUS => 160 end.

(** The values a [double] speed takes in this program. *)
Inductive double := Finite (q : Q) | PosInf.

(** [#define MI_PER_KM (0.62137119224)]. *)
Definition MI_PER_KM : Q := 62137119224 # 100000000000.

(** [const int m_spacing], initialised to 127 by the constructor and
    never changed. *)
Definition m_spacing : Z := 127.

(** [double calcScaleSpeed(const uint32_t dt_msec) const]. *)
Definition calcScaleSpeed (scale : E_Scale) (metric : bool) (dt_msec : Z) : double :=
  if dt_msec =? 0 then PosInf
  else
    let m_per_sec := (inject_Z m_spacing / inject_Z dt_msec)%Q in
    let scale_speed := (m_per_sec * inject_Z (scale_value scale))%Q in
    let km_per_hr := (scale_speed * (36 # 10))%Q in
    Finite (km_per_hr * (if metric then 1 else MI_PER_KM))%Q.

(** Equality of speeds up to equality of rationals. *)
Definition deq (a b : double) : Prop :=
  match a, b with
  | Finite p, Finite q => (p == q)%Q
  | PosInf, PosInf => True
  | _, _ => False
  end.

(** ** Properties *)

(** C34: for a non-zero elapsed time the speed times the elapsed time is
    the scaled distance: [speed * dt = spacing * scale * 3.6], times
    [MI_PER_KM] in imperial mode,
    exactly, so the speed is inversely proportional to the interval. *)
Theorem calcScaleSpeed_mul_dt (s : E_Scale) (metric : bool) (dt : Z) :
  0 < dt ->
  exists q, calcScaleSpeed s metric dt = Finite q /\
    (q * inject_Z dt == inject_Z (m_spacing * scale_value s) * (36 # 10) *
                        (if metric then 1 else MI_PER_KM))%Q.
Proof.
  intros Hdt. unfold calcScaleSpeed.
  destruct (Z.eqb_spec dt 0) as [E|_]; [lia|].
  eexists; split; [reflexivity|].
  rewrite inject_Z_mult. field.
  intros H. unfold Qeq in H. simpl in H. lia.
Qed.

Lemma calcScaleSpeed_mul_dt_witness :
  exists q, calcScaleSpeed eJP true 200 = Finite q /\
    (q * inject_Z 200 == inject_Z (m_spacing * scale_value eJP) * (36 # 10) * 1)%Q.
Proof. apply (calcScaleSpeed_mul_dt eJP true 200). lia. Defined.

End ScaleSpeed.
