(* ===== verification/TransitSpec.v ===== *)
(** * The transit timer's contract, as an abstract machine

    What the speedometer promises its reader (the sketch's [loop()]),
    independently of sensors, filters and windows: it observes per tick
    whether each channel detects, opens an interval when exactly one
    channel detects while idle, reports [calcScaleSpeed] of the interval
    when the other channel detects, may abandon an interval only while
    the other channel is silent and the second-sensor timeout has passed,
    holds a report until a reader consumes it, and becomes idle again
    only while both channels are silent.

    [spec_lstep] is that machine, labelled by what the implementation
    exposes at each call: a tick with its observation, a read of the
    update flag, or a call that changes nothing observable.  The class
    [TransitTimer] is the interface an implementation provides (its state,
    calls, abstraction and labels) and [TransitTimerOk] its refinement
    law; the client theorems at the end are proved against the interface
    only.  [TransitRefinement] gives the instance for the program. *)

From Stdlib Require Import ZArith QArith Lia List.
From S2P Require Import Prelude ScaleSpeed.
Import ListNotations.
Open Scope Z_scope.

Module TransitSpec.
Import ScaleSpeed.

Inductive Chan := ChA | ChB.

(** What one tick exposes: the two detections, the time, and the scale
    and units in force. *)
Record Obs := mkObs { oA : bool; oB : bool; ot : Z; osc : E_Scale; om : bool }.

Definition detects (c : Chan) (ob : Obs) : bool :=
  match c with ChA => oA ob | ChB => oB ob end.

Definition other (c : Chan) : Chan := match c with ChA => ChB | ChB => ChA end.

Inductive AState :=
  | AIdle                    (* watching for a first detection *)
  | ATiming (c : Chan) (t0 : Z)  (* interval opened by [c] alone at [t0] *)
  | AReport (v : double)     (* a speed reported, not yet read *)
  | ABusy.                   (* the train passes or the sensors settle *)

Inductive Label :=
  | LTick (ob : Obs)         (* a tick that ran the state machine *)
  | LRead                    (* isUpdated() or getSpeed() *)
  | LSilent.                 (* any other call, or a tick that was not due *)

Section Spec.
Context (timeout : Z).

Inductive spec_step : AState -> Obs -> AState -> Prop :=
  | sp_idle_wait ob :
      oA ob = false -> oB ob = false -> spec_step AIdle ob AIdle
  | sp_idle_open c ob :
      detects c ob = true -> detects (other c) ob = false ->
      spec_step AIdle ob (ATiming c (ot ob))
  | sp_idle_reject ob :
      oA ob = true -> oB ob = true -> spec_step AIdle ob ABusy
  | sp_timing_close c t0 ob :
      detects (other c) ob = true ->
      spec_step (ATiming c t0) ob
        (AReport (calcScaleSpeed (osc ob) (om ob) (u32 (ot ob - t0))))
  | sp_timing_wait c t0 ob :
      detects (other c) ob = false -> spec_step (ATiming c t0) ob (ATiming c t0)
  | sp_timing_abandon c t0 ob :
      detects (other c) ob = false -> timeout < u32 (ot ob - t0) ->
      spec_step (ATiming c t0) ob ABusy
  | sp_report_hold v ob : spec_step (AReport v) ob (AReport v)
  | sp_busy_stay ob : spec_step ABusy ob ABusy
  | sp_busy_idle ob :
      oA ob = false -> oB ob = false -> spec_step ABusy ob AIdle.

(** Reading consumes a pending report and changes nothing else. *)
Definition spec_read (a : AState) : AState :=
  match a with AReport _ => ABusy | _ => a end.

Inductive spec_lstep : AState -> Label -> AState -> Prop :=
  | sl_tick a ob a' : spec_step a ob a' -> spec_lstep a (LTick ob) a'
  | sl_read a : spec_lstep a LRead (spec_read a)
  | sl_silent a : spec_lstep a LSilent a.

(** Runs of the abstract machine along a list of labels. *)
Inductive spec_run : AState -> list Label -> AState -> Prop :=
  | sr_nil a : spec_run a [] a
  | sr_cons a l a1 ls a2 :
      spec_lstep a l a1 -> spec_run a1 ls a2 -> spec_run a (l :: ls) a2.

End Spec.

(** The interface of an implementation: its states, its calls [E], the
    execution of a call ([None] on undefined behaviour), the abstraction
    of a state and the label a call exposes. *)
Class TransitTimer (S E : Type) := {
  tt_exec : S -> E -> option S;
  tt_abs : S -> AState;
  tt_label : S -> E -> Label
}.

(** The refinement law: every call of the implementation is a step of
    the abstract machine on the label it exposes. *)
Class TransitTimerOk (S E : Type) `{TransitTimer S E} (timeout : Z) := {
  tt_refines : forall s e s', tt_exec s e = Some s' ->
    spec_lstep timeout (tt_abs s) (tt_label s e) (tt_abs s')
}.

Section Client.
Context {S E : Type} `{TransitTimer S E}.

(** Running a list of calls, with the labels they expose. *)
Fixpoint tt_run (s : S) (es : list E) : option (S * list Label) :=
  match es with
  | [] => Some (s, [])
  | e :: es' =>
      match tt_exec s e with
      | None => None
      | Some s1 =>
          match tt_run s1 es' with
          | None => None
          | Some (s2, ls) => Some (s2, tt_label s e :: ls)
          end
      end
  end.

End Client.

(** ** Lemmas on abstract runs *)

Section Runs.
Context (timeout : Z).

(** An interval open at the end of a run from idle was opened by a tick
    of the run on which its channel alone detected, at its start time. *)
Definition opened_in (ls : list Label) (c : Chan) (t0 : Z) : Prop :=
  exists ls1 ob0 ls2, ls = ls1 ++ LTick ob0 :: ls2 /\
    detects c ob0 = true /\ detects (other c) ob0 = false /\ ot ob0 = t0.

(** A report pending at the end of a run from idle was produced by an
    opening tick followed by a closing tick on which the other channel
    detected, and its value is the speed of the interval between them. *)
Definition reported_in (ls : list Label) (v : double) : Prop :=
  exists ls1 ob0 ls2 ob1 ls3 c,
    ls = ls1 ++ LTick ob0 :: ls2 ++ LTick ob1 :: ls3 /\
    detects c ob0 = true /\ detects (other c) ob0 = false /\
    detects (other c) ob1 = true /\
    v = calcScaleSpeed (osc ob1) (om ob1) (u32 (ot ob1 - ot ob0)).

Lemma spec_run_snoc_inv a ls l a' :
  spec_run timeout a (ls ++ [l]) a' ->
  exists a1, spec_run timeout a ls a1 /\ spec_lstep timeout a1 l a'.
Proof.
  revert a; induction ls as [|l0 ls IH]; intros a H; simpl in H;
    inversion H as [|? ? b ? ? Hs Hr]; subst.
  - inversion Hr; subst. eauto using spec_run.
  - destruct (IH _ Hr) as (b' & Hr' & Hs'). eauto using spec_run.
Qed.

Lemma spec_read_timing a c t0 : spec_read a = ATiming c t0 -> a = ATiming c t0.
Proof. destruct a; simpl; congruence. Qed.

Lemma spec_read_report a v : spec_read a <> AReport v.
Proof. destruct a; simpl; congruence. Qed.

Lemma opened_in_snoc ls l c t0 : opened_in ls c t0 -> opened_in (ls ++ [l]) c t0.
Proof.
  intros (ls1 & ob0 & ls2 & -> & H). exists ls1, ob0, (ls2 ++ [l]).
  rewrite <- app_assoc. split; [reflexivity | exact H].
Qed.

Lemma reported_in_snoc ls l v : reported_in ls v -> reported_in (ls ++ [l]) v.
Proof.
  intros (ls1 & ob0 & ls2 & ob1 & ls3 & c & -> & H). exists ls1, ob0, ls2, ob1, (ls3 ++ [l]), c.
  split; [|exact H]. rewrite <- !app_assoc. simpl. rewrite <- !app_assoc. reflexivity.
Qed.

Lemma spec_run_history ls a' :
  spec_run timeout AIdle ls a' ->
  (forall c t0, a' = ATiming c t0 -> opened_in ls c t0) /\
  (forall v, a' = AReport v -> reported_in ls v).
Proof.
  revert a'; induction ls as [|l ls IH] using rev_ind; intros a' Hr.
  - inversion Hr; subst. split; intros; discriminate.
  - apply spec_run_snoc_inv in Hr as (a1 & Hr & Hs).
    destruct (IH a1 Hr) as [IHt IHr].
    inversion Hs as [? ob ? Hst | | ]; subst;
      [inversion Hst; subst | |]; split; intros ? ? ; intros; try discriminate;
      repeat match goal with
      | H : ATiming _ _ = ATiming _ _ |- _ => injection H as <- <-
      | H : AReport _ = AReport _ |- _ => injection H as <-
      | H : spec_read _ = ATiming _ _ |- _ => apply spec_read_timing in H
      | H : spec_read _ = AReport _ |- _ => destruct (spec_read_report _ _ H)
      end;
      eauto using opened_in_snoc, reported_in_snoc.
    + exists ls, ob, []. auto.
    + destruct (IHt _ _ eq_refl) as (ls1 & ob0 & ls2 & -> & H1 & H2 & <-).
      exists ls1, ob0, ls2, ob, [], c. rewrite <- app_assoc. auto.
Qed.

End Runs.

(** ** What a client of the interface can rely on *)

Section Client_theorems.
Context {S E : Type} {timeout : Z} `{TransitTimerOk S E timeout}.

(** Every run of an implementation is a run of the abstract machine on
    the labels it exposes. *)
Lemma tt_run_refines s es s' ls :
  tt_run s es = Some (s', ls) -> spec_run timeout (tt_abs s) ls (tt_abs s').
Proof.
  revert s s' ls; induction es as [|e es IH]; intros s s' ls Hrun; simpl in Hrun.
  - injection Hrun as <- <-. constructor.
  - destruct (tt_exec s e) as [s1|] eqn:He; [|discriminate].
    destruct (tt_run s1 es) as [[s2 ls']|] eqn:Hr; [|discriminate].
    injection Hrun as <- <-. econstructor; [apply tt_refines, He | apply IH, Hr].
Qed.

(** A report an implementation holds after a run from an idle state was
    measured between an opening tick and a closing tick of that run. *)
Lemma tt_report_origin s es s' ls v :
  tt_abs s = AIdle -> tt_run s es = Some (s', ls) -> tt_abs s' = AReport v ->
  reported_in ls v.
Proof.
  intros Hs Hrun Hv. apply tt_run_refines in Hrun. rewrite Hs in Hrun.
  apply (spec_run_history timeout ls (tt_abs s') Hrun), Hv.
Qed.

End Client_theorems.

End TransitSpec.
