(* ===== verification/Speedometer.v ===== *)
(** * Speedometer (src/Speedometer.h, src/Speedometer.cpp)

    The object's fields are the record [Speedometer]; the globals it
    shares with the interrupt routines and the two [Sensor] objects it
    reaches through the global pointers [sensA], [sensB] form, with the
    built-in LED, the record [System].  [update] is
    [Speedometer::update()]: the tick gate of the base class
    [StateMachine] (an input), the trigger/read phase [trigger_phase],
    the six-state transition [fsm_step] and the LED.  The window pointer
    [m_window] is [None] until [setWindow] is called; dereferencing it,
    like a division by zero in a filter, is undefined behaviour and makes
    [update] return [None].  [millis()] is called at most once per call of
    [update] (tracing is compiled out), so one time stamp [now] per call
    is the value every branch sees. *)

From stdpp Require Import base list.
From Stdlib Require Import ZArith QArith Lia Bool.
From S2P Require Import Prelude Filter Schmitt RangeWindow Sensor ScaleSpeed.
Open Scope Z_scope.

Module Speedometer.
Import ScaleSpeed Sensor RangeWindow.

(** [enum E_State]. *)
Inductive E_State := eClear | eSenseA | eSenseB | eUpdated | eActive | eClearing.

#[export] Instance E_State_eq_dec : EqDecision E_State.
Proof. solve_decision. Defined.

(** [#define TIMEOUT_2ND 45455], [#define TIMEOUT_CLEAR 1500] (ms). *)
Definition TIMEOUT_2ND : Z := 45455.
Definition TIMEOUT_CLEAR : Z := 1500.

(** The fields of [class Speedometer] ([m_spacing] is the constant
    [ScaleSpeed.m_spacing]). *)
Record Speedometer := mkSpeedometer {
  m_sense_when : Z;                 (* uint32_t *)
  m_speed : double;                 (* double *)
  m_scale : E_Scale;
  m_window : option RangeWindow;    (* RangeWindow<uint8_t>*, None = NULL *)
  m_metric : bool;
  m_state : E_State;
  m_detA : bool;
  m_detB : bool;
  m_triggered : bool;
  m_updated : bool
}.

(** The object, the globals [readyA]/[readyB], the sensor objects
    [*sensA], [*sensB], and the level written to [LED_BUILTIN]. *)
Record System := mkSystem {
  sp : Speedometer;
  glob : Globals;
  sensA : Sensor;
  sensB : Sensor;
  led : bool
}.

(** What the environment supplies to one call of [update]: the result
    of [StateMachine::update()], [millis()], the driver's status of
    [RangeStartSingleShot] for each sensor, and its measurement for each
    sensor ([Some range] when [RangeGetMeasurementIfReady] returns 0). *)
Record TickInput := mkTick {
  gate : bool;
  now : Z;
  start_rcA : Z;
  start_rcB : Z;
  measA : option Z;
  measB : option Z
}.

(** ** Field updates *)

Definition set_state (o : Speedometer) (st : E_State) : Speedometer :=
  {| m_sense_when := m_sense_when o; m_speed := m_speed o; m_scale := m_scale o;
     m_window := m_window o; m_metric := m_metric o; m_state := st;
     m_detA := m_detA o; m_detB := m_detB o; m_triggered := m_triggered o;
     m_updated := m_updated o |}.

Definition set_sense_when (o : Speedometer) (t : Z) : Speedometer :=
  {| m_sense_when := t; m_speed := m_speed o; m_scale := m_scale o;
     m_window := m_window o; m_metric := m_metric o; m_state := m_state o;
     m_detA := m_detA o; m_detB := m_detB o; m_triggered := m_triggered o;
     m_updated := m_updated o |}.

Definition set_speed (o : Speedometer) (v : double) : Speedometer :=
  {| m_sense_when := m_sense_when o; m_speed := v; m_scale := m_scale o;
     m_window := m_window o; m_metric := m_metric o; m_state := m_state o;
     m_detA := m_detA o; m_detB := m_detB o; m_triggered := m_triggered o;
     m_updated := m_updated o |}.

Definition set_updated (o : Speedometer) (b : bool) : Speedometer :=
  {| m_sense_when := m_sense_when o; m_speed := m_speed o; m_scale := m_scale o;
     m_window := m_window o; m_metric := m_metric o; m_state := m_state o;
     m_detA := m_detA o; m_detB := m_detB o; m_triggered := m_triggered o;
     m_updated := b |}.

Definition set_triggered (o : Speedometer) (b : bool) : Speedometer :=
  {| m_sense_when := m_sense_when o; m_speed := m_speed o; m_scale := m_scale o;
     m_window := m_window o; m_metric := m_metric o; m_state := m_state o;
     m_detA := m_detA o; m_detB := m_detB o; m_triggered := b;
     m_updated := m_updated o |}.

(** The read branch: detections and the window after evaluating it. *)
Definition set_reading (o : Speedometer) (w : RangeWindow) (dA dB : bool) : Speedometer :=
  {| m_sense_when := m_sense_when o; m_speed := m_speed o; m_scale := m_scale o;
     m_window := Some w; m_metric := m_metric o; m_state := m_state o;
     m_detA := dA; m_detB := dB; m_triggered := false;
     m_updated := m_updated o |}.

Definition set_config (o : Speedometer) (sc : E_Scale) (metric : bool)
    (w : option RangeWindow) : Speedometer :=
  {| m_sense_when := m_sense_when o; m_speed := m_speed o; m_scale := sc;
     m_window := w; m_metric := metric; m_state := m_state o;
     m_detA := m_detA o; m_detB := m_detB o; m_triggered := m_triggered o;
     m_updated := m_updated o |}.

(** ** Construction *)

(** [Speedometer(E_Scale s = eJP)]: the fields, and the two sensors
    [Sensor(SENS_A = 0x2A, ENA_A = 5, INTR_A = 3, &readyA)] and
    [Sensor(SENS_B = 0x2B, ENA_B = 4, INTR_B = 2, &readyB)]; the globals
    start false. *)
Definition make_speedometer (s : E_Scale) : Speedometer :=
  {| m_sense_when := 0; m_speed := Finite 0; m_scale := s; m_window := None;
     m_metric := if s is eJP then true else false; m_state := eClear;
     m_detA := false; m_detB := false; m_triggered := false; m_updated := false |}.

Definition init (s : E_Scale) : System :=
  {| sp := make_speedometer s;
     glob := {| readyA := false; readyB := false |};
     sensA := Sensor.make 42 5 3 readyA_ref;
     sensB := Sensor.make 43 4 2 readyB_ref;
     led := false |}.

(** The interrupt attachments of the constructor (lines 65-71):
    [attachInterrupt(digitalPinToInterrupt(INTR_A), isr_A, RISING)], then
    the same for [INTR_B] and [isr_B]; [digitalPinToInterrupt] is the
    board's map, an argument.  [RISING] is Arduino.h's mode 3. *)
Definition RISING : Z := 3.

Definition init_irqs (digitalPinToInterrupt : Z -> Z) : IrqTable :=
  attachInterrupt (attachInterrupt [] (digitalPinToInterrupt 3) isrA_fn RISING)
    (digitalPinToInterrupt 2) isrB_fn RISING.

(** ** Operations *)

(** Lines 80-112 of [update]: trigger both sensors when not yet
    triggered; otherwise, when both are ready, read both distances and
    evaluate the one window on A's distance, then on B's, each cast to
    [uint8_t]. *)
Definition trigger_phase (s : System) (i : TickInput) : option System :=
  let o := sp s in
  if negb (m_triggered o) then
    let '(g1, a1, _) := Sensor.trigger (glob s) (sensA s) (start_rcA i) in
    let '(g2, b1, _) := Sensor.trigger g1 (sensB s) (start_rcB i) in
    Some {| sp := set_triggered o true; glob := g2; sensA := a1; sensB := b1;
            led := led s |}
  else if is_ready (glob s) (sensA s) && is_ready (glob s) (sensB s) then
    match get_distance (sensA s) (measA i) with
    | None => None
    | Some (a1, distA) =>
        match get_distance (sensB s) (measB i) with
        | None => None
        | Some (b1, distB) =>
            match m_window o with
            | None => None
            | Some w =>
                let '(w1, dA) := within w (u8 distA) in
                let '(w2, dB) := within w1 (u8 distB) in
                Some {| sp := set_reading o w2 dA dB; glob := glob s;
                        sensA := a1; sensB := b1; led := led s |}
            end
        end
    end
  else Some s.

(** Lines 118-163: state Clear.  A detection on exactly one channel
    opens the interval at [now]; a double detection is rejected. *)
Definition step_clear (o : Speedometer) (now : Z) : Speedometer :=
  if m_detA o && m_detB o then set_state o eClearing
  else if m_detA o && negb (m_detB o) then set_state (set_sense_when o now) eSenseA
  else if negb (m_detA o) && m_detB o then set_state (set_sense_when o now) eSenseB
  else o.

(** Lines 164-205: state SenseA, waiting for B. *)
Definition step_senseA (o : Speedometer) (now : Z) : Speedometer :=
  let elapsed := u32 (now - m_sense_when o) in
  if m_detB o then
    set_state (set_sense_when (set_updated
      (set_speed o (calcScaleSpeed (m_scale o) (m_metric o) elapsed)) true) now) eUpdated
  else if TIMEOUT_2ND <? elapsed then set_state (set_speed o (Finite 0)) eActive
  else o.

(** Lines 206-247: state SenseB, waiting for A. *)
Definition step_senseB (o : Speedometer) (now : Z) : Speedometer :=
  let elapsed := u32 (now - m_sense_when o) in
  if m_detA o then
    set_state (set_sense_when (set_updated
      (set_speed o (calcScaleSpeed (m_scale o) (m_metric o) elapsed)) true) now) eUpdated
  else if TIMEOUT_2ND <? elapsed then set_state (set_speed o (Finite 0)) eActive
  else o.

(** Lines 248-272: state Updated, waiting for the reader. *)
Definition step_updated (o : Speedometer) : Speedometer :=
  if negb (m_updated o) then set_state o eActive else o.

(** Lines 273-294: state Active, waiting for both channels to clear. *)
Definition step_active (o : Speedometer) (now : Z) : Speedometer :=
  if negb (m_detA o) && negb (m_detB o)
  then set_state (set_sense_when o now) eClearing
  else o.

(** Lines 295-316: state Clearing, the settle timeout. *)
Definition step_clearing (o : Speedometer) (now : Z) : Speedometer :=
  if m_detA o || m_detB o then set_state o eActive
  else if TIMEOUT_CLEAR <? u32 (now - m_sense_when o) then set_state o eClear
  else o.

(** Lines 118-316: the transition of the state machine at time [now],
    on the detections held in the object: the chain of tests on
    [m_state]. *)
Definition fsm_step (o : Speedometer) (now : Z) : Speedometer :=
  match m_state o with
  | eClear => step_clear o now
  | eSenseA => step_senseA o now
  | eSenseB => step_senseB o now
  | eUpdated => step_updated o
  | eActive => step_active o now
  | eClearing => step_clearing o now
  end.

(** Lines 319-320: the LED is on while one sensor has detected and the
    other is awaited. *)
Definition led_on (st : E_State) : bool :=
  match st with eSenseA | eSenseB => true | _ => false end.

(** [bool Speedometer::update()]: the new system and the result. *)
Definition update (s : System) (i : TickInput) : option (System * bool) :=
  if negb (gate i) then Some (s, false)
  else
    match trigger_phase s i with
    | None => None
    | Some s1 =>
        let o2 := fsm_step (sp s1) (now i) in
        Some ({| sp := o2; glob := glob s1; sensA := sensA s1; sensB := sensB s1;
                 led := led_on (m_state o2) |}, true)
    end.

(** [bool Speedometer::isUpdated()]. *)
Definition isUpdated (o : Speedometer) : Speedometer * bool :=
  if m_updated o then (set_updated o false, true) else (o, false).

(** [double Speedometer::getSpeed()]. *)
Definition getSpeed (o : Speedometer) : Speedometer * double :=
  (set_updated o false, m_speed o).

(** [setScale], [setMetric], [setWindow]. *)
Definition setScale (o : Speedometer) (sc : E_Scale) : Speedometer :=
  set_config o sc (m_metric o) (m_window o).
Definition setMetric (o : Speedometer) (m : bool) : Speedometer :=
  set_config o (m_scale o) m (m_window o).
Definition setWindow (o : Speedometer) (w : RangeWindow) : Speedometer :=
  set_config o (m_scale o) (m_metric o) (Some w).

(** [bool Speedometer::inWindow(const uint8_t range) const]: the
    argument is converted to [uint8_t] on the call; evaluates (and so
    mutates) the window through the pointer. *)
Definition inWindow (o : Speedometer) (range : Z) : option (Speedometer * bool) :=
  match m_window o with
  | None => None
  | Some w =>
      let '(w1, b) := within w (u8 range) in
      Some (set_config o (m_scale o) (m_metric o) (Some w1), b)
  end.

(** [int Speedometer::begin()]: both sensors' [begin] run (the operator
    is a bitwise [|], so both are evaluated), and the result is -1 when
    either returned true.  C++ leaves the order of the two calls
    unspecified; each talks only to its own chip (its own answers and its
    own call trace), so both orders give the same result and traces, and
    the model computes the two calls independently. *)
Definition begin (rspA rspB : DevCall -> Z) : Z * list DevCall * list DevCall :=
  let '(okA, trA) := Sensor.begin rspA in
  let '(okB, trB) := Sensor.begin rspB in
  (if okA || okB then -1 else 0, trA, trB).

(** ** Lemmas *)

(** The elapsed time the code computes, [now - m_sense_when] in
    uint32_t, is the true duration [d] for any [d < 2^32], across a
    wrap-around of [millis()]. *)
Lemma elapsed_wraps (t0 d : Z) :
  0 <= d < 2 ^ 32 -> u32 (u32 (t0 + d) - u32 t0) = d.
Proof. intros Hd. apply wrap_sub_elapsed; lia. Qed.

#[export] Hint Rewrite elapsed_wraps using lia : tsp_rw.

(** Unfold the transition and its per-state branches. *)
Ltac unfold_fsm :=
  unfold fsm_step, step_clear, step_senseA, step_senseB, step_updated,
    step_active, step_clearing.

(** ** Properties of the transition *)

(** C5: in state Clear the machine starts timing on a detection on
    exactly one channel, recording [now]; a simultaneous detection on
    both channels is rejected by going to Clearing without timing; no
    detection leaves the object unchanged. *)
Theorem fsm_clear (o : Speedometer) (t : Z) :
  m_state o = eClear ->
  (m_detA o = true -> m_detB o = true -> fsm_step o t = set_state o eClearing) /\
  (m_detA o = true -> m_detB o = false ->
     fsm_step o t = set_state (set_sense_when o t) eSenseA) /\
  (m_detA o = false -> m_detB o = true ->
     fsm_step o t = set_state (set_sense_when o t) eSenseB) /\
  (m_detA o = false -> m_detB o = false -> fsm_step o t = o).
Proof.
  intros Hs. unfold_fsm. rewrite Hs.
  repeat split; intros HA HB; rewrite HA, HB; reflexivity.
Qed.

Lemma fsm_clear_witness :
  let o := {| m_sense_when := 0; m_speed := Finite 0; m_scale := eJP;
              m_window := None; m_metric := true; m_state := eClear;
              m_detA := true; m_detB := true; m_triggered := false;
              m_updated := false |} in
  m_state o = eClear /\ m_state (fsm_step o 100) = eClearing.
Proof.
  intros o. split; [reflexivity|].
  rewrite (proj1 (fsm_clear o 100 eq_refl) eq_refl eq_refl). reflexivity.
Defined.

(** C2: the measurement.  In SenseA (resp. SenseB), when the other
    channel detects at time [t0 + d], with the interval opened at [t0]
    and [d] less than 2^32 ms, the machine computes the speed of the
    true interval [d], even if [millis()] wrapped in between, raises the
    update flag, restarts the time mark at [now] and goes to Updated. *)
Theorem fsm_measure (o : Speedometer) (t0 d : Z) :
  (m_state o = eSenseA /\ m_detB o = true \/ m_state o = eSenseB /\ m_detA o = true) ->
  m_sense_when o = u32 t0 -> 0 <= d < 2 ^ 32 ->
  let o' := fsm_step o (u32 (t0 + d)) in
  m_state o' = eUpdated /\ m_updated o' = true /\
  m_speed o' = calcScaleSpeed (m_scale o) (m_metric o) d /\
  m_sense_when o' = u32 (t0 + d).
Proof.
  intros Hst Hw Hd. unfold_fsm.
  destruct Hst as [[Hs Hdet] | [Hs Hdet]]; rewrite Hs, Hdet; simpl;
    rewrite Hw, elapsed_wraps by exact Hd; auto.
Qed.

Lemma fsm_measure_witness :
  let o := {| m_sense_when := u32 (2 ^ 32 - 100); m_speed := Finite 0; m_scale := eJP;
              m_window := None; m_metric := true; m_state := eSenseA;
              m_detA := false; m_detB := true; m_triggered := false;
              m_updated := false |} in
  m_speed (fsm_step o (u32 (2 ^ 32 - 100 + 200))) = calcScaleSpeed eJP true 200.
Proof.
  intros o. apply (fsm_measure o (2 ^ 32 - 100) 200); [left; split; reflexivity | reflexivity | lia].
Defined.

(** C6: the second-sensor timeout.  In SenseA without a detection on B
    (resp. SenseB without one on A), [d] ms after the interval opened:
    beyond [TIMEOUT_2ND] the machine abandons the measurement, resets the
    speed to 0 and goes to Active, never to Updated; up to the timeout it
    keeps waiting unchanged. *)
Theorem fsm_timeout (o : Speedometer) (t0 d : Z) :
  (m_state o = eSenseA /\ m_detB o = false \/ m_state o = eSenseB /\ m_detA o = false) ->
  m_sense_when o = u32 t0 -> 0 <= d < 2 ^ 32 ->
  (TIMEOUT_2ND < d ->
     fsm_step o (u32 (t0 + d)) = set_state (set_speed o (Finite 0)) eActive) /\
  (d <= TIMEOUT_2ND -> fsm_step o (u32 (t0 + d)) = o).
Proof.
  intros Hst Hw Hd. unfold_fsm.
  destruct Hst as [[Hs Hdet] | [Hs Hdet]]; rewrite Hs, Hdet; simpl;
    rewrite Hw, elapsed_wraps by exact Hd;
    split; intros Ht; split_ifs; reflexivity || lia.
Qed.

Lemma fsm_timeout_witness :
  let o := {| m_sense_when := u32 1000; m_speed := Finite 0; m_scale := eJP;
              m_window := None; m_metric := true; m_state := eSenseA;
              m_detA := true; m_detB := false; m_triggered := false;
              m_updated := false |} in
  m_state (fsm_step o (u32 (1000 + 50000))) = eActive.
Proof.
  intros o. rewrite (proj1 (fsm_timeout o 1000 50000 (or_introl (conj eq_refl eq_refl))
                              eq_refl ltac:(lia)) ltac:(unfold TIMEOUT_2ND; lia)).
  reflexivity.
Defined.

(** C8: after a measurement the machine holds in Updated while the
    update flag is raised, and moves to Active on the first tick after a
    reader consumed it. *)
Theorem fsm_updated (o : Speedometer) (t : Z) :
  m_state o = eUpdated ->
  (m_updated o = true -> fsm_step o t = o) /\
  (m_updated o = false -> fsm_step o t = set_state o eActive).
Proof. intros Hs. unfold_fsm. rewrite Hs. split; intros Hu; rewrite Hu; reflexivity. Qed.

Lemma fsm_updated_witness :
  let o := {| m_sense_when := 0; m_speed := Finite 0; m_scale := eJP;
              m_window := None; m_metric := true; m_state := eUpdated;
              m_detA := true; m_detB := true; m_triggered := false;
              m_updated := true |} in
  m_state o = eUpdated /\ fsm_step o 7 = o.
Proof. intros o. split; [reflexivity|]. exact (proj1 (fsm_updated o 7 eq_refl) eq_refl). Defined.

(** C7: the settle phase.  Active moves to Clearing, marking [now], once
    both channels are clear.  In Clearing, a detection on either channel
    sends the machine back to Active (the wait restarts); with both clear,
    [d] ms after the mark, it returns to Clear beyond [TIMEOUT_CLEAR] and
    keeps waiting up to it. *)
Theorem fsm_settle (o : Speedometer) (t0 d : Z) :
  (m_state o = eActive -> m_detA o = false -> m_detB o = false ->
     fsm_step o t0 = set_state (set_sense_when o t0) eClearing) /\
  (m_state o = eClearing -> m_detA o || m_detB o = true ->
     fsm_step o t0 = set_state o eActive) /\
  (m_state o = eClearing -> m_detA o = false -> m_detB o = false ->
     m_sense_when o = u32 t0 -> 0 <= d < 2 ^ 32 ->
     fsm_step o (u32 (t0 + d)) = if TIMEOUT_CLEAR <? d then set_state o eClear else o).
Proof.
  unfold_fsm. split; [|split].
  - intros Hs HA HB. rewrite Hs, HA, HB. reflexivity.
  - intros Hs Hd. rewrite Hs, Hd. reflexivity.
  - intros Hs HA HB Hw Hd. rewrite Hs, HA, HB, Hw, elapsed_wraps by exact Hd. reflexivity.
Qed.

Lemma fsm_settle_witness :
  let o := {| m_sense_when := u32 10; m_speed := Finite 0; m_scale := eJP;
              m_window := None; m_metric := true; m_state := eClearing;
              m_detA := false; m_detB := false; m_triggered := false;
              m_updated := false |} in
  m_state (fsm_step o (u32 (10 + 1501))) = eClear.
Proof.
  intros o.
  rewrite (proj2 (proj2 (fsm_settle o 10 1501)) eq_refl eq_refl eq_refl eq_refl ltac:(lia)).
  reflexivity.
Defined.

(** ** Properties of the object's interface *)

(** C9: the tick gate.  When [StateMachine::update()] reports that the
    period has not elapsed, [update] returns false and changes nothing:
    no sensor is triggered or read, no flag, field or LED changes. *)
Theorem update_gate_idle (s : System) (i : TickInput) :
  gate i = false -> update s i = Some (s, false).
Proof. intros Hg. unfold update. rewrite Hg. reflexivity. Qed.

Lemma update_gate_idle_witness :
  gate (mkTick false 5 0 0 None None) = false /\
  update (init eJP) (mkTick false 5 0 0 None None) = Some (init eJP, false).
Proof. split; [reflexivity | apply update_gate_idle; reflexivity]. Defined.

(** C22: the update flag is read at most once: after [isUpdated] returns
    true, a second call returns false, as does a call after [getSpeed];
    [getSpeed] returns the stored speed, and neither reader changes the
    state or the speed. *)
Theorem updated_consumed_once (o : Speedometer) :
  snd (isUpdated (fst (isUpdated o))) = false /\
  snd (isUpdated (fst (getSpeed o))) = false /\
  snd (getSpeed o) = m_speed o /\
  m_state (fst (isUpdated o)) = m_state o /\ m_speed (fst (isUpdated o)) = m_speed o /\
  m_state (fst (getSpeed o)) = m_state o.
Proof. unfold isUpdated, getSpeed. destruct (m_updated o) eqn:E; simpl; rewrite ?E; repeat split. Qed.

(** C23: [Speedometer::begin] reports failure (-1) exactly when at least
    one sensor's [begin] returned true, that is when at least one sensor
    initialised successfully; it reports success (0) only when both
    sensors failed.  Both sensors are always initialised, A first. *)
Theorem begin_result (rspA rspB : DevCall -> Z) :
  let '(r, trA, trB) := begin rspA rspB in
  (r = -1 <-> fst (Sensor.begin rspA) = true \/ fst (Sensor.begin rspB) = true) /\
  (r = 0 <-> fst (Sensor.begin rspA) = false /\ fst (Sensor.begin rspB) = false) /\
  trA = snd (Sensor.begin rspA) /\ trB = snd (Sensor.begin rspB).
Proof.
  unfold begin. destruct (Sensor.begin rspA) as [[|] trA], (Sensor.begin rspB) as [[|] trB];
    simpl; intuition congruence.
Qed.

End Speedometer.
