(* ===== verification/System.v ===== *)
(** * The running program: interleaving of ticks, interrupts and readers

    The sketch (not in the repository) constructs one [Speedometer],
    calls its setters and [begin], then calls [update()] from [loop()]
    and reads the result with [isUpdated()] / [getSpeed()].  The interrupt
    routines [isr_A], [isr_B] (src/Speedometer.cpp) run between any two
    of these calls and set the ready flags the sensors point to.  An
    [Event] is one such call or interrupt, [exec] its effect on the whole
    [System], [step] the transition relation, and [reachable] the states
    of all interleavings from the constructor's state. *)

From stdpp Require Import base list.
From Stdlib Require Import ZArith QArith Lia Bool.
From S2P Require Import Prelude Filter Schmitt RangeWindow Sensor ScaleSpeed Speedometer.
Open Scope Z_scope.

Module System.
Import ScaleSpeed Sensor RangeWindow Speedometer.

Inductive Event :=
  | Tick (i : TickInput)          (* loop() calls update() *)
  | IsrA | IsrB                   (* interrupt from sensor A or B *)
  | ReadUpdated                   (* isUpdated() *)
  | ReadSpeed                     (* getSpeed() *)
  | SetScale (sc : E_Scale)       (* setScale(s) *)
  | SetMetric (m : bool)          (* setMetric(m) *)
  | SetWindow (w : RangeWindow)   (* setWindow(win) *)
  | InWindow (r : Z).             (* inWindow(range) *)

Definition with_sp (s : System) (o : Speedometer) : System :=
  {| sp := o; glob := glob s; sensA := sensA s; sensB := sensB s; led := led s |}.

Definition with_glob (s : System) (g : Globals) : System :=
  {| sp := sp s; glob := g; sensA := sensA s; sensB := sensB s; led := led s |}.

(** The effect of one event; [None] on undefined behaviour. *)
Definition exec (s : System) (e : Event) : option System :=
  match e with
  | Tick i => option_map fst (update s i)
  | IsrA => Some (with_glob s (isr_A (glob s)))
  | IsrB => Some (with_glob s (isr_B (glob s)))
  | ReadUpdated => Some (with_sp s (fst (isUpdated (sp s))))
  | ReadSpeed => Some (with_sp s (fst (getSpeed (sp s))))
  | SetScale sc => Some (with_sp s (setScale (sp s) sc))
  | SetMetric m => Some (with_sp s (setMetric (sp s) m))
  | SetWindow w => Some (with_sp s (setWindow (sp s) w))
  | InWindow r => option_map (fun r => with_sp s (fst r)) (inWindow (sp s) r)
  end.

Inductive step : System -> System -> Prop :=
  | step_exec s e s' : exec s e = Some s' -> step s s'.

Definition reachable (sc : E_Scale) (s : System) : Prop := star step (init sc) s.

(** A finite interleaving, event by event. *)
Fixpoint run (s : System) (es : list Event) : option System :=
  match es with
  | [] => Some s
  | e :: es' =>
      match exec s e with
      | None => None
      | Some s' => run s' es'
      end
  end.

(** The invariant of reachable states: the update flag is raised only
    in state Updated, and the LED shows whether a measurement is open. *)
Definition inv (s : System) : Prop :=
  (m_updated (sp s) = true -> m_state (sp s) = eUpdated) /\
  led s = led_on (m_state (sp s)).

(** A system that has not seen any interrupt: both ready flags clear,
    the machine idle in Clear with no detection and no pending update. *)
Definition quiet (s : System) : Prop :=
  glob s = {| readyA := false; readyB := false |} /\ m_state (sp s) = eClear /\
  m_detA (sp s) = false /\ m_detB (sp s) = false /\ m_updated (sp s) = false.

(** The VL6180X's contract on measurements: ranges of 0 to 255 mm. *)
Definition tick_ok (i : TickInput) : Prop :=
  (forall r, measA i = Some r -> 0 <= r <= 255) /\
  (forall r, measB i = Some r -> 0 <= r <= 255).

Definition valid_event (e : Event) : Prop :=
  match e with Tick i => tick_ok i | _ => True end.

(** Steps whose device inputs respect the chip's contract, and the
    states they reach. *)
Inductive vstep : System -> System -> Prop :=
  | vstep_exec s e s' : valid_event e -> exec s e = Some s' -> vstep s s'.

Definition vreachable (sc : E_Scale) (s : System) : Prop := star vstep (init sc) s.

(** Both sensors keep ten samples of at most 255 mm. *)
Definition sensors_ok (s : System) : Prop :=
  Sensor.wf 255 (sensA s) /\ Sensor.wf 255 (sensB s).

(** The uint32_t types of the state: the time mark, and both sensors'
    distance and filter samples (Sensor.wf with the largest uint32_t). *)
Definition typed (s : System) : Prop :=
  0 <= m_sense_when (sp s) <= 2 ^ 32 - 1 /\
  Sensor.wf (2 ^ 32 - 1) (sensA s) /\ Sensor.wf (2 ^ 32 - 1) (sensB s).

(** A call whose [millis()] is a uint32_t; measurements are unconstrained. *)
Definition typed_event (e : Event) : Prop :=
  match e with Tick i => 0 <= now i <= 2 ^ 32 - 1 | _ => True end.

Inductive tstep : System -> System -> Prop :=
  | tstep_exec s e s' : typed_event e -> exec s e = Some s' -> tstep s s'.

Definition treachable (sc : E_Scale) (s : System) : Prop := star tstep (init sc) s.

(** Each sensor points to its own global: [sensA->m_ready == &readyA]
    and [sensB->m_ready == &readyB]. *)
Definition refs_ok (s : System) : Prop :=
  m_ready (sensA s) = readyA_ref /\ m_ready (sensB s) = readyB_ref.

(** ** Event sequences and states used by the witnesses *)

(** One measurement cycle of the real-time loop: a tick that triggers
    both sensors at [10 k] ms, both interrupts, and a tick that reads
    the ranges [dA], [dB] at [10 k + 5] ms. *)
Definition cycle (k : nat) (dA dB : Z) : list Event :=
  [Tick (mkTick true (10 * Z.of_nat k) 0 0 None None); IsrA; IsrB;
   Tick (mkTick true (10 * Z.of_nat k + 5) 0 0 (Some dA) (Some dB))].

(** A train passing: the sketch installs the window [make 100 20 5]
    (edges 80 and 120 mm, hysteresis 5 mm); each sensor first sees
    nothing nearer than 200 mm, then the train at 100 mm, sensor A from
    cycle [kA] on and sensor B from cycle [kB] on.  The run starts with
    one interrupt per sensor: without it no measurement is ever started
    ([no_interrupt_no_measurement]). *)
Definition passage (kA kB n : nat) : list Event :=
  [SetWindow (RangeWindow.make 100 20 5); IsrA; IsrB] ++
  flat_map (fun k => cycle k (if Nat.ltb k kA then 200 else 100)
                             (if Nat.ltb k kB then 200 else 100)) (seq 0 n).

(** A window with edges 80 and 120 mm and hysteresis 5 mm whose low
    trigger is set and high trigger clear: the last value was inside. *)
Definition win_inside : RangeWindow :=
  {| m_schmitt_lo := Schmitt.make 80 5 true; m_schmitt_hi := Schmitt.make 120 5 false |}.

(** A sensor whose ten filtered samples are all [d]. *)
Definition sensor_at (p : flag_ref) (d : Z) : Sensor :=
  {| m_ready := p; m_addr := 0; m_gpio0 := 0; m_gpio1 := 0; m_dist := d;
     m_filter := Filter.mkFilter 10 (repeat d 10) |}.

(** Both sensors triggered and ready, in state Clear, with the window
    [w]; the filter of sensor A holds [dA] mm, that of sensor B [dB] mm. *)
Definition ready_system (w : RangeWindow) (dA dB : Z) : System :=
  {| sp := set_triggered (setWindow (make_speedometer eJP) w) true;
     glob := {| readyA := true; readyB := true |};
     sensA := sensor_at readyA_ref dA; sensB := sensor_at readyB_ref dB;
     led := false |}.

(** The read tick at 1000 ms with the given measurements. *)
Definition read_tick (mA mB : option Z) : TickInput := mkTick true 1000 0 0 mA mB.

(** ** Lemmas *)

Lemma run_star (s s' : System) (es : list Event) :
  run s es = Some s' -> star step s s'.
Proof.
  revert s; induction es as [|e es IH]; intros s H; simpl in H.
  - injection H as ->. constructor.
  - destruct (exec s e) as [s1|] eqn:E; [|discriminate].
    econstructor; [econstructor; exact E | exact (IH _ H)].
Qed.

Lemma get_distance_ready (x x' : Sensor) (meas : option Z) (d : Z) :
  get_distance x meas = Some (x', d) -> m_ready x' = m_ready x.
Proof.
  unfold get_distance. destruct meas as [r|]; [|intros H; injection H as <- _; reflexivity].
  destruct (Filter.filter (m_filter x) (u32 r)) as [[fl out]|]; [|discriminate].
  intros H; injection H as <- _. reflexivity.
Qed.

(** The read phase changes neither the machine's state, nor the flag,
    nor the speed, nor the LED, nor the globals the sensors point to. *)
Lemma trigger_phase_keeps (s s1 : System) (i : TickInput) :
  trigger_phase s i = Some s1 ->
  m_state (sp s1) = m_state (sp s) /\ m_updated (sp s1) = m_updated (sp s) /\
  m_speed (sp s1) = m_speed (sp s) /\ m_sense_when (sp s1) = m_sense_when (sp s) /\
  led s1 = led s /\
  m_ready (sensA s1) = m_ready (sensA s) /\ m_ready (sensB s1) = m_ready (sensB s).
Proof.
  unfold trigger_phase.
  destruct (m_triggered (sp s)); simpl.
  - destruct (is_ready (glob s) (sensA s) && is_ready (glob s) (sensB s)).
    + destruct (get_distance (sensA s) (measA i)) as [[a1 dA]|] eqn:EA; [|discriminate].
      destruct (get_distance (sensB s) (measB i)) as [[b1 dB]|] eqn:EB; [|discriminate].
      destruct (m_window (sp s)) as [w|]; [|discriminate].
      destruct (within w (u8 dA)) as [w1 x]. destruct (within w1 (u8 dB)) as [w2 y].
      intros H; injection H as <-.
      repeat split; simpl; eauto using get_distance_ready.
    + intros H; injection H as <-. repeat split.
  - unfold Sensor.trigger.
    destruct (negb (load (glob s) (m_ready (sensA s)))) eqn:EA; simpl;
      destruct (negb (load _ (m_ready (sensB s)))); simpl;
      intros H; injection H as <-; repeat split.
Qed.

(** The read branch of the trigger phase, once both readings are in:
    the one window is evaluated on A's distance, then on B's. *)
Lemma trigger_phase_read (s : System) (i : TickInput) (w : RangeWindow)
    (a1 b1 : Sensor) (dA dB : Z) :
  m_triggered (sp s) = true ->
  is_ready (glob s) (sensA s) && is_ready (glob s) (sensB s) = true ->
  get_distance (sensA s) (measA i) = Some (a1, dA) ->
  get_distance (sensB s) (measB i) = Some (b1, dB) ->
  m_window (sp s) = Some w ->
  trigger_phase s i =
    let '(w1, detA) := within w (u8 dA) in
    let '(w2, detB) := within w1 (u8 dB) in
    Some {| sp := set_reading (sp s) w2 detA detB; glob := glob s;
            sensA := a1; sensB := b1; led := led s |}.
Proof.
  intros Ht Hr EA EB Ew. unfold trigger_phase. rewrite Ht, Hr, EA, EB, Ew. reflexivity.
Qed.

Lemma fsm_step_flag (o : Speedometer) (t : Z) :
  (m_updated o = true -> m_state o = eUpdated) ->
  m_updated (fsm_step o t) = true -> m_state (fsm_step o t) = eUpdated.
Proof.
  intros Hinv. destruct (m_updated o) eqn:Eu.
  - pose proof (Hinv eq_refl) as Hs. unfold_fsm. rewrite Hs. simpl. rewrite Eu. auto.
  - unfold_fsm. destruct (m_state o), (m_detA o), (m_detB o); simpl; split_ifs;
      simpl; rewrite ?Eu; try discriminate; auto.
Qed.

Lemma exec_inv (s s' : System) (e : Event) : inv s -> exec s e = Some s' -> inv s'.
Proof.
  intros [Hu Hl]. destruct e; simpl; intros H.
  - unfold update in H. destruct (gate i); simpl in H.
    + destruct (trigger_phase s i) as [s1|] eqn:Et; [|discriminate].
      injection H as <-. destruct (trigger_phase_keeps _ _ _ Et) as (E1 & E2 & _).
      split; [apply fsm_step_flag; intros Hx; rewrite E1; apply Hu; congruence | reflexivity].
    + injection H as <-. split; assumption.
  - injection H as <-. split; assumption.
  - injection H as <-. split; assumption.
  - injection H as <-. unfold isUpdated, inv.
    destruct (m_updated (sp s)) eqn:E; simpl; split; rewrite ?E;
      try (intros Hx; discriminate Hx); auto.
  - injection H as <-. unfold inv. simpl. split; [intros Hx; discriminate Hx | exact Hl].
  - injection H as <-. split; assumption.
  - injection H as <-. split; assumption.
  - injection H as <-. split; assumption.
  - unfold inWindow in H. destruct (m_window (sp s)); [|discriminate].
    destruct (within r0 (u8 r)). injection H as <-. split; assumption.
Qed.

(** ** Properties *)

(** C1: in every state reachable by any interleaving of ticks,
    interrupts, reader calls and setter calls from the constructor, the
    update flag is raised only in state Updated (so a pending speed is
    never lost by a state change), and the LED is lit exactly in the
    states SenseA and SenseB. *)
Theorem reachable_inv (sc : E_Scale) (s : System) : reachable sc s -> inv s.
Proof.
  intros Hr. apply (star_invariant step inv) with (s := init sc); [|exact Hr|].
  - intros s1 s2 Hi Hs. inversion Hs; subst. eapply exec_inv; eassumption.
  - split; [intros Hx; discriminate Hx | reflexivity].
Qed.

Lemma reachable_inv_witness :
  reachable eJP (init eJP) /\ inv (init eJP).
Proof.
  assert (H : reachable eJP (init eJP)) by constructor.
  split; [exact H | exact (reachable_inv eJP (init eJP) H)].
Defined.

Lemma load_quiet (p : flag_ref) : load {| readyA := false; readyB := false |} p = false.
Proof. destruct p; reflexivity. Qed.

(** One tick of a quiet system triggers nothing (both flags are clear,
    so both [trigger] calls return -1), reads nothing, and stays quiet. *)
Lemma exec_tick_quiet (s : System) (i : TickInput) :
  quiet s ->
  exists s', exec s (Tick i) = Some s' /\ quiet s' /\
    sensA s' = sensA s /\ sensB s' = sensB s /\ m_speed (sp s') = m_speed (sp s).
Proof.
  intros (Hg & Hs & HA & HB & Hu). unfold exec, update.
  destruct (gate i); simpl; [|eexists; repeat split; eauto].
  assert (Hf : forall o : Speedometer, m_state o = eClear -> m_detA o = false ->
            m_detB o = false -> fsm_step o (now i) = o).
  { intros o H1 H2 H3. unfold_fsm. rewrite H1, H2, H3. reflexivity. }
  unfold trigger_phase, Sensor.trigger, is_ready. rewrite Hg, !load_quiet.
  destruct (m_triggered (sp s)); simpl; rewrite ?load_quiet; simpl;
    (eexists; split; [reflexivity|]); rewrite Hf by assumption;
    unfold quiet; simpl; repeat split; assumption.
Qed.

Lemma trigger_wf (B : Z) (g : Globals) (x : Sensor) (rc : Z) :
  Sensor.wf B x -> Sensor.wf B (snd (fst (Sensor.trigger g x rc))).
Proof.
  intros H. unfold Sensor.trigger. destruct (negb (load g (m_ready x))); simpl; [exact H|].
  apply wf_set_dist; [exact H | right; reflexivity].
Qed.

(** The read phase keeps any properties [PA], [PB] of the two sensors
    that [trigger] keeps and that the two reads of this tick keep; with
    a window installed, it is then defined. *)
Lemma trigger_phase_sensors (PA PB : Sensor -> Prop) (s : System) (i : TickInput) :
  (forall g x rc, PA x -> PA (snd (fst (Sensor.trigger g x rc)))) ->
  (forall g x rc, PB x -> PB (snd (fst (Sensor.trigger g x rc)))) ->
  (exists a1 dA, get_distance (sensA s) (measA i) = Some (a1, dA) /\ PA a1) ->
  (exists b1 dB, get_distance (sensB s) (measB i) = Some (b1, dB) /\ PB b1) ->
  PA (sensA s) -> PB (sensB s) ->
  (m_window (sp s) <> None -> exists s1, trigger_phase s i = Some s1) /\
  (forall s1, trigger_phase s i = Some s1 -> PA (sensA s1) /\ PB (sensB s1)).
Proof.
  intros HtA HtB (a1 & dA & EA & HA1) (b1 & dB & EB & HB1) HA HB. unfold trigger_phase.
  destruct (m_triggered (sp s)); simpl.
  - destruct (is_ready (glob s) (sensA s) && is_ready (glob s) (sensB s));
      [|split; [eauto | intros s1 H; injection H as <-; split; assumption]].
    rewrite EA, EB. destruct (m_window (sp s)) as [w|]; [|split; [congruence | discriminate]].
    destruct (within w (u8 dA)) as [w1 x]. destruct (within w1 (u8 dB)) as [w2 y].
    split; [eauto | intros s1 H; injection H as <-; split; assumption].
  - pose proof (HtA (glob s) (sensA s) (start_rcA i) HA) as HA2.
    destruct (Sensor.trigger (glob s) (sensA s) (start_rcA i)) as [[g1 a2] r1].
    pose proof (HtB g1 (sensB s) (start_rcB i) HB) as HB2.
    destruct (Sensor.trigger g1 (sensB s) (start_rcB i)) as [[g2 b2] r2].
    split; [eauto | intros s1 H; injection H as <-; split; assumption].
Qed.

(** With the chip's range contract, the read phase keeps both sensors'
    invariant and, with a window installed, is defined. *)
Lemma trigger_phase_ok (s : System) (i : TickInput) :
  sensors_ok s -> tick_ok i ->
  (m_window (sp s) <> None -> exists s1, trigger_phase s i = Some s1) /\
  (forall s1, trigger_phase s i = Some s1 -> sensors_ok s1).
Proof.
  intros [HA HB] [HmA HmB].
  destruct (trigger_phase_sensors (Sensor.wf 255) (Sensor.wf 255) s i) as [H1 H2];
    [apply trigger_wf | apply trigger_wf | | | exact HA | exact HB | split; [exact H1 | exact H2]].
  - destruct (get_distance_bounded 255 (sensA s) (measA i) HA ltac:(lia) HmA)
      as (a1 & dA & EA & HA1 & _). eauto.
  - destruct (get_distance_bounded 255 (sensB s) (measB i) HB ltac:(lia) HmB)
      as (b1 & dB & EB & HB1 & _). eauto.
Qed.

Lemma exec_sensors_ok (s s' : System) (e : Event) :
  sensors_ok s -> valid_event e -> exec s e = Some s' -> sensors_ok s'.
Proof.
  intros Hs Hv. destruct e; simpl; intros H;
    try (injection H as <-; exact Hs).
  - unfold update in H. destruct (gate i); simpl in H; [|injection H as <-; exact Hs].
    destruct (trigger_phase s i) as [s1|] eqn:E; [|discriminate].
    injection H as <-. exact (proj2 (trigger_phase_ok s i Hs Hv) s1 E).
  - destruct (inWindow (sp s) r); [|discriminate]. injection H as <-. exact Hs.
Qed.

(** The time mark is only ever set to the tick's [millis()]. *)
Lemma fsm_step_sense_when (o : Speedometer) (t : Z) :
  m_sense_when (fsm_step o t) = m_sense_when o \/ m_sense_when (fsm_step o t) = t.
Proof. unfold_fsm. destruct (m_state o); split_ifs; cbn; auto. Qed.

Lemma sensors_typed_trigger_phase (s s1 : System) (i : TickInput) :
  Sensor.wf (2 ^ 32 - 1) (sensA s) -> Sensor.wf (2 ^ 32 - 1) (sensB s) ->
  (m_window (sp s) <> None -> exists s1, trigger_phase s i = Some s1) /\
  (forall s1, trigger_phase s i = Some s1 ->
     Sensor.wf (2 ^ 32 - 1) (sensA s1) /\ Sensor.wf (2 ^ 32 - 1) (sensB s1)).
Proof.
  intros HA HB.
  apply trigger_phase_sensors; [apply trigger_wf | apply trigger_wf | | | exact HA | exact HB].
  - destruct (get_distance_typed (sensA s) (measA i) HA) as (a1 & dA & E & H & _). eauto.
  - destruct (get_distance_typed (sensB s) (measB i) HB) as (b1 & dB & E & H & _). eauto.
Qed.

Lemma exec_typed (s s' : System) (e : Event) :
  typed s -> typed_event e -> exec s e = Some s' -> typed s'.
Proof.
  intros (Hw & HA & HB) Hv. destruct e; simpl; intros H;
    try (injection H as <-; split; [exact Hw | split; assumption]).
  - unfold update in H. destruct (gate i); simpl in H;
      [|injection H as <-; split; [exact Hw | split; assumption]].
    destruct (trigger_phase s i) as [s1|] eqn:E; [|discriminate].
    injection H as <-. destruct (proj2 (sensors_typed_trigger_phase s s1 i HA HB) s1 E).
    destruct (trigger_phase_keeps _ _ _ E) as (_ & _ & _ & Ew & _).
    split; [|split; assumption]. simpl.
    destruct (fsm_step_sense_when (sp s1) (now i)) as [-> | ->]; [rewrite Ew|]; assumption.
  - unfold isUpdated in H. destruct (m_updated (sp s)); injection H as <-;
      (split; [exact Hw | split; assumption]).
  - unfold inWindow in H. destruct (m_window (sp s)) as [w|]; [|discriminate].
    destruct (within w (u8 r)). injection H as <-. split; [exact Hw | split; assumption].
Qed.

Lemma exec_refs (s s' : System) (e : Event) :
  refs_ok s -> exec s e = Some s' -> refs_ok s'.
Proof.
  intros [HA HB]. destruct e; simpl; intros H;
    try (injection H as <-; split; assumption).
  - unfold update in H. destruct (gate i); simpl in H; [|injection H as <-; split; assumption].
    destruct (trigger_phase s i) as [s1|] eqn:E; [|discriminate].
    injection H as <-. destruct (trigger_phase_keeps _ _ _ E) as (_ & _ & _ & _ & _ & EA & EB).
    split; simpl; congruence.
  - destruct (inWindow (sp s) r); [|discriminate]. injection H as <-. split; assumption.
Qed.

(** C10: safety of the whole program when the chip keeps to its range
    contract: in every state reached by interleavings whose measurements
    lie in 0..255 mm, both sensors' filters hold ten samples of at most
    255 mm (so every filtered distance fits the [uint8_t] cast), and once
    a window is installed every call of [update] is defined: the window
    pointer is not null and no filter divides by zero. *)
Theorem vreachable_safe (sc : E_Scale) (s : System) :
  vreachable sc s ->
  sensors_ok s /\
  (m_window (sp s) <> None -> forall i, tick_ok i -> exists r, update s i = Some r).
Proof.
  intros Hr.
  assert (Hok : sensors_ok s).
  { apply (star_invariant vstep sensors_ok) with (s := init sc); [|exact Hr|].
    - intros s1 s2 H1 Hs. inversion Hs; subst. eapply exec_sensors_ok; eassumption.
    - split; repeat split; try (repeat constructor; lia); right; reflexivity. }
  split; [exact Hok|]. intros Hw i Hi. unfold update.
  destruct (gate i); simpl; [|eauto].
  destruct (proj1 (trigger_phase_ok s i Hok Hi) Hw) as [s1 E]. rewrite E. eauto.
Qed.

Lemma vreachable_safe_witness :
  let s := with_sp (init eJP) (setWindow (sp (init eJP)) (RangeWindow.make 100 20 5)) in
  vreachable eJP s /\ m_window (sp s) <> None /\
  exists r, update s (mkTick true 5 0 0 (Some 90) None) = Some r.
Proof.
  intros s.
  assert (Hr : vreachable eJP s).
  { apply star_one. apply (vstep_exec _ (SetWindow (RangeWindow.make 100 20 5))); reflexivity. }
  split; [exact Hr | split; [discriminate|]].
  apply (proj2 (vreachable_safe eJP s Hr)); [discriminate|].
  split; intros r Hm; [injection Hm as <-; lia | discriminate].
Defined.

(** C20: the window pointer is dereferenced without a check.  In any
    state where [setWindow] has not installed a window ([m_window] is
    NULL), [update] has undefined behaviour exactly on the ticks that
    read the sensors: a tick that is due, with a measurement pending
    ([m_triggered]) and both sensors ready.  Every other call of [update]
    is defined, so the failure comes at the first read, not before. *)
Theorem null_window_update (s : System) (i : TickInput) :
  m_window (sp s) = None ->
  (update s i = None <->
   gate i = true /\ m_triggered (sp s) = true /\
   is_ready (glob s) (sensA s) && is_ready (glob s) (sensB s) = true).
Proof.
  intros Hw. unfold update, trigger_phase. rewrite Hw.
  destruct (gate i); [|split; [discriminate | intros [H _]; discriminate]].
  destruct (m_triggered (sp s)); cbn [negb].
  - destruct (is_ready (glob s) (sensA s) && is_ready (glob s) (sensB s));
      [|split; [discriminate | intros (_ & _ & H); discriminate]].
    destruct (get_distance (sensA s) (measA i)) as [[? ?]|],
      (get_distance (sensB s) (measB i)) as [[? ?]|]; tauto.
  - destruct (Sensor.trigger _ _ _) as [[? ?] ?], (Sensor.trigger _ _ _) as [[? ?] ?].
    split; [discriminate | intros (_ & H & _); discriminate].
Qed.

Lemma null_window_update_witness :
  let es := [IsrA; IsrB; Tick (mkTick true 5 0 0 None None); IsrA; IsrB] in
  let s0 := match run (init eJP) es with Some s => s | None => init eJP end in
  let i := mkTick true 10 0 0 (Some 100) (Some 100) in
  run (init eJP) es = Some s0 /\ m_window (sp s0) = None /\ update s0 i = None.
Proof.
  intros es s0 i.
  assert (Hw : m_window (sp s0) = None) by (vm_compute; reflexivity).
  split; [vm_compute; reflexivity | split; [exact Hw|]].
  apply (proj2 (null_window_update s0 i Hw)). vm_compute. repeat split.
Defined.

(** C15: without an interrupt nothing is ever measured.  The ready flags
    start false and [Sensor::trigger] refuses to start a measurement
    unless its flag is set, so from any state where neither interrupt has
    fired, every sequence of ticks succeeds, starts no measurement, reads
    no sensor (the sensor objects are unchanged) and leaves the machine
    in Clear with no detection and no update: the program depends on an
    interrupt arriving before its first measurement is started. *)
Theorem no_interrupt_no_measurement (s : System) (ins : list TickInput) :
  quiet s ->
  exists s', run s (map Tick ins) = Some s' /\ quiet s' /\
    sensA s' = sensA s /\ sensB s' = sensB s /\ m_speed (sp s') = m_speed (sp s).
Proof.
  revert s; induction ins as [|i ins IH]; intros s Hq.
  - exists s. simpl. auto.
  - destruct (exec_tick_quiet s i Hq) as (s1 & E1 & Hq1 & HA & HB & Hv).
    destruct (IH s1 Hq1) as (s2 & E2 & Hq2 & HA2 & HB2 & Hv2).
    exists s2. cbn [map run]. rewrite E1. split; [exact E2|]. split; [exact Hq2|].
    repeat split; congruence.
Qed.

Lemma no_interrupt_no_measurement_witness :
  quiet (init eJP) /\
  exists s', run (init eJP) (map Tick [mkTick true 5 0 0 (Some 100) (Some 100);
                                      mkTick true 10 0 0 (Some 100) (Some 100)]) = Some s' /\
    quiet s'.
Proof.
  assert (Hq : quiet (init eJP)) by (repeat split).
  split; [exact Hq|].
  destruct (no_interrupt_no_measurement (init eJP)
              [mkTick true 5 0 0 (Some 100) (Some 100);
               mkTick true 10 0 0 (Some 100) (Some 100)] Hq) as (s' & E & Hq' & _).
  exists s'. split; assumption.
Defined.

(** C14: one window serves both channels.  [update] evaluates the same
    [RangeWindow] on A's distance and then on B's, so A's reading moves
    the high trigger that decides B's detection.  Whenever B's distance
    lies above the low edge's dead band and inside the high edge's dead
    band, and A's distance is outside the high edge's dead band, B's
    detection is decided by A's distance alone: B is detected exactly
    when A's distance is below the high edge's dead band.  Neither B's
    own distance nor the window's previous state plays any part. *)
Theorem shared_window_couples_channels (s : System) (i : TickInput) (w : RangeWindow)
    (a1 b1 : Sensor) (dA dB : Z) :
  let lo := m_schmitt_lo w in
  let hi := m_schmitt_hi w in
  m_triggered (sp s) = true ->
  is_ready (glob s) (sensA s) && is_ready (glob s) (sensB s) = true ->
  get_distance (sensA s) (measA i) = Some (a1, dA) ->
  get_distance (sensB s) (measB i) = Some (b1, dB) ->
  m_window (sp s) = Some w ->
  Schmitt.m_ref lo + Schmitt.m_hy lo < u8 dB ->
  Schmitt.m_ref hi - Schmitt.m_hy hi <= u8 dB <= Schmitt.m_ref hi + Schmitt.m_hy hi ->
  u8 dA < Schmitt.m_ref hi - Schmitt.m_hy hi \/ Schmitt.m_ref hi + Schmitt.m_hy hi < u8 dA ->
  exists s1, trigger_phase s i = Some s1 /\
    m_detB (sp s1) = negb (Schmitt.m_ref hi + Schmitt.m_hy hi <? u8 dA).
Proof.
  intros lo hi Ht Hr EA EB Ew Hlo Hhi HA.
  rewrite (trigger_phase_read s i w a1 b1 dA dB Ht Hr EA EB Ew).
  subst lo hi; destruct w as [[rl hl sl] [rh hh sh]]; cbn in Hlo, Hhi, HA |- *.
  unfold within, Schmitt.f; cbn [Schmitt.m_ref Schmitt.m_hy Schmitt.m_state].
  split_ifs; eexists; (split; [reflexivity|]); cbn; lia || reflexivity.
Qed.

Lemma shared_window_couples_channels_witness :
  let s := ready_system win_inside 100 118 in
  let i := read_tick (Some 100) (Some 118) in
  exists a1 b1, get_distance (sensA s) (measA i) = Some (a1, 100) /\
    get_distance (sensB s) (measB i) = Some (b1, 118) /\
    exists s1, trigger_phase s i = Some s1 /\ m_detB (sp s1) = true.
Proof.
  intros s i.
  destruct (get_distance (sensA s) (measA i)) as [[a1 dA]|] eqn:EA; [|vm_compute in EA; discriminate].
  destruct (get_distance (sensB s) (measB i)) as [[b1 dB]|] eqn:EB; [|vm_compute in EB; discriminate].
  assert (HdA : dA = 100) by (vm_compute in EA; congruence).
  assert (HdB : dB = 118) by (vm_compute in EB; congruence).
  subst dA dB. exists a1, b1. split; [reflexivity | split; [reflexivity|]].
  refine (shared_window_couples_channels s i win_inside a1 b1 100 118
            eq_refl eq_refl EA EB eq_refl _ _ _);
    vm_compute; [reflexivity | split; discriminate | left; reflexivity].
Defined.

(** C21: a missing reading is not neutral.  [get_distance] returns
    [NO_READING = 0xFFFFFFFF] when the driver reports an error, and
    [update] casts it to [uint8_t] 255 before the window sees it.  For any
    window: if its high edge plus hysteresis is below 255 the missing
    reading is not a detection; but if 255 lies in the high edge's dead
    band (a window reaching within the hysteresis of 255 mm) and above
    the low edge's, the missing reading is a detection exactly when the
    high trigger was clear, that is whenever the last value was not above
    the window. *)
Theorem no_reading_detected (s : System) (i : TickInput) (w : RangeWindow) (b1 : Sensor) (dB : Z) :
  let lo := m_schmitt_lo w in
  let hi := m_schmitt_hi w in
  m_triggered (sp s) = true ->
  is_ready (glob s) (sensA s) && is_ready (glob s) (sensB s) = true ->
  measA i = None ->
  get_distance (sensB s) (measB i) = Some (b1, dB) ->
  m_window (sp s) = Some w ->
  exists s1, trigger_phase s i = Some s1 /\
    (Schmitt.m_ref hi + Schmitt.m_hy hi < 255 -> m_detA (sp s1) = false) /\
    (Schmitt.m_ref lo + Schmitt.m_hy lo < 255 -> Schmitt.m_ref hi - Schmitt.m_hy hi <= 255 <= Schmitt.m_ref hi + Schmitt.m_hy hi ->
     m_detA (sp s1) = negb (Schmitt.m_state hi)).
Proof.
  intros lo hi Ht Hr Em EB Ew.
  assert (EA : get_distance (sensA s) (measA i) = Some (sensA s, NO_READING))
    by (rewrite Em; reflexivity).
  rewrite (trigger_phase_read s i w _ b1 _ dB Ht Hr EA EB Ew).
  change (u8 NO_READING) with 255.
  subst lo hi; destruct w as [[rl hl sl] [rh hh sh]]; cbn.
  unfold within, Schmitt.f; cbn [Schmitt.m_ref Schmitt.m_hy Schmitt.m_state].
  split_ifs; eexists; (split; [reflexivity|]); cbn; split; intros; lia || reflexivity.
Qed.

Lemma no_reading_detected_witness :
  let s := ready_system (mkWindow (Schmitt.make 210 5 true) (Schmitt.make 250 5 false)) 230 0 in
  let i := read_tick None (Some 0) in
  exists b1, get_distance (sensB s) (measB i) = Some (b1, 0) /\
    exists s1, trigger_phase s i = Some s1 /\ m_detA (sp s1) = true.
Proof.
  intros s i.
  destruct (get_distance (sensB s) (measB i)) as [[b1 dB]|] eqn:EB; [|vm_compute in EB; discriminate].
  assert (HdB : dB = 0) by (vm_compute in EB; congruence). subst dB.
  exists b1. split; [reflexivity|].
  destruct (no_reading_detected s i _ b1 0 eq_refl eq_refl eq_refl EB eq_refl) as (s1 & E & _ & H).
  exists s1. split; [exact E|]. rewrite H; [reflexivity | | ]; vm_compute; [reflexivity | split; discriminate].
Defined.

(** C11: the uint32_t typing of the whole program, without any contract
    on the chip's measurements: in every state reached by interleavings
    whose [millis()] values are uint32_t, the time mark is a uint32_t,
    both filters hold ten uint32_t samples and both distances are
    uint32_t (a measurement is converted by the assignment to [range],
    the filter's sum wraps); and once a window is installed every call of
    [update] is defined, whatever the measurements. *)
Theorem treachable_typed (sc : E_Scale) (s : System) :
  treachable sc s ->
  typed s /\ (m_window (sp s) <> None -> forall i, exists r, update s i = Some r).
Proof.
  intros Hr.
  assert (Ht : typed s).
  { apply (star_invariant tstep typed) with (s := init sc); [|exact Hr|].
    - intros s1 s2 H1 Hs. inversion Hs; subst. eapply exec_typed; eassumption.
    - split; [simpl; lia|]. split; repeat split; try (repeat constructor; lia); right; reflexivity. }
  split; [exact Ht|]. intros Hw i. unfold update.
  destruct (gate i); simpl; [|eauto].
  destruct Ht as (_ & HA & HB).
  destruct (proj1 (sensors_typed_trigger_phase s s i HA HB) Hw) as [s1 E]. rewrite E. eauto.
Qed.

Lemma treachable_typed_witness :
  let s := with_sp (init eJP) (setWindow (sp (init eJP)) (RangeWindow.make 100 20 5)) in
  treachable eJP s /\ m_window (sp s) <> None /\
  exists r, update s (mkTick true 5 0 0 (Some 70000) (Some (-3))) = Some r.
Proof.
  intros s.
  assert (Hr : treachable eJP s).
  { apply star_one. apply (tstep_exec _ (SetWindow (RangeWindow.make 100 20 5))); [exact I | reflexivity]. }
  split; [exact Hr | split; [discriminate|]].
  apply (proj2 (treachable_typed eJP s Hr)). discriminate.
Defined.

(** C16: the interrupt routines and the sensors' flag pointers round
    trip.  In every reachable state, the flag [isr_A] raises is the one
    sensor A reads through its pointer, and sensor B's reading is left
    as it was (and symmetrically for [isr_B]); after [isr_A], the next
    [sensA->trigger()] sees the flag, consumes it and returns the
    driver's status, leaving sensor B's flag untouched, and a second
    [trigger()] without a new interrupt returns -1. *)
Theorem isr_roundtrip (sc : E_Scale) (s : System) (rc : Z) :
  reachable sc s ->
  is_ready (isr_A (glob s)) (sensA s) = true /\
  is_ready (isr_A (glob s)) (sensB s) = is_ready (glob s) (sensB s) /\
  is_ready (isr_B (glob s)) (sensB s) = true /\
  is_ready (isr_B (glob s)) (sensA s) = is_ready (glob s) (sensA s) /\
  let '(g1, a1, r1) := Sensor.trigger (isr_A (glob s)) (sensA s) rc in
  r1 = rc /\ is_ready g1 a1 = false /\ is_ready g1 (sensB s) = is_ready (glob s) (sensB s) /\
  snd (Sensor.trigger g1 a1 rc) = -1.
Proof.
  intros Hr.
  assert (Hrefs : refs_ok s).
  { apply (star_invariant step refs_ok) with (s := init sc); [|exact Hr|split; reflexivity].
    intros s1 s2 H1 Hs. inversion Hs; subst. eapply exec_refs; eassumption. }
  destruct Hrefs as [HA HB]. unfold is_ready, isr_A, isr_B, Sensor.trigger.
  rewrite HA, HB. simpl. rewrite HA. simpl. repeat split.
Qed.

Lemma isr_roundtrip_witness :
  reachable eJP (init eJP) /\ is_ready (isr_A (glob (init eJP))) (sensA (init eJP)) = true.
Proof.
  assert (H : reachable eJP (init eJP)) by constructor.
  split; [exact H | exact (proj1 (isr_roundtrip eJP (init eJP) 0 H))].
Defined.

Section Wiring.
Context (digitalPinToInterrupt : Z -> Z).
Hypothesis pins_distinct : digitalPinToInterrupt 3 <> digitalPinToInterrupt 2.

(** C17: the interrupt wiring of the constructor.  On a board whose
    pin-to-interrupt map separates pins 3 and 2, the interrupt of each
    sensor's GPIO1 pin runs, on a rising edge, the routine that raises
    the flag that sensor reads through its pointer, and leaves the other
    sensor's flag as it was; the events [IsrA], [IsrB] of the model are
    these routines. *)
Theorem irq_wiring (sc : E_Scale) :
  let xA := sensA (init sc) in
  let xB := sensB (init sc) in
  irq_lookup (init_irqs digitalPinToInterrupt) (digitalPinToInterrupt (m_gpio1 xA)) =
    Some (isrA_fn, RISING) /\
  irq_lookup (init_irqs digitalPinToInterrupt) (digitalPinToInterrupt (m_gpio1 xB)) =
    Some (isrB_fn, RISING) /\
  (forall g, load (run_isr isrA_fn g) (m_ready xA) = true /\
             load (run_isr isrA_fn g) (m_ready xB) = load g (m_ready xB)) /\
  (forall g, load (run_isr isrB_fn g) (m_ready xB) = true /\
             load (run_isr isrB_fn g) (m_ready xA) = load g (m_ready xA)) /\
  (forall s, exec s IsrA = Some (with_glob s (run_isr isrA_fn (glob s))) /\
             exec s IsrB = Some (with_glob s (run_isr isrB_fn (glob s)))).
Proof.
  intros xA xB. simpl. rewrite !Z.eqb_refl.
  destruct (Z.eqb_spec (digitalPinToInterrupt 2) (digitalPinToInterrupt 3)) as [E|_];
    [destruct pins_distinct; symmetry; exact E|].
  repeat split.
Qed.

End Wiring.

(** On an ATmega328 board (Uno, Nano), pin 2 is interrupt 0 and pin 3
    interrupt 1. *)
Lemma irq_wiring_witness :
  let uno := fun pin => if pin =? 2 then 0 else if pin =? 3 then 1 else -1 in
  uno 3 <> uno 2 /\
  irq_lookup (init_irqs uno) (uno (m_gpio1 (sensA (init eJP)))) = Some (isrA_fn, RISING).
Proof.
  intros uno. assert (H : uno 3 <> uno 2) by discriminate.
  split; [exact H | exact (proj1 (irq_wiring uno H eJP))].
Defined.

End System.
