(* ===== verification/TransitRefinement.v ===== *)
(** * The program implements the transit timer's contract

    The instance of [TransitSpec.TransitTimer] for the whole program: its
    states are [Speedometer.System], its calls the [System.Event]s, a call
    runs by [System.exec].  The abstraction reads only the machine's state,
    time mark, speed and update flag:

    - Clear is idle; SenseA / SenseB is an interval opened by channel A /
      B at [m_sense_when];
    - Updated with the flag raised is a pending report of [m_speed];
      Updated with the flag consumed, Active and Clearing are busy.

    A tick that runs the machine exposes the detections the read phase
    left in the object, [millis()], and the scale and units in force;
    [isUpdated()] and [getSpeed()] expose a read; every other call,
    interrupts and setters included, is silent.  [exec_refines] is the
    refinement law; the client theorems of [TransitSpec] then give the
    contract for every run of the program. *)

From stdpp Require Import base list.
From Stdlib Require Import ZArith QArith Lia Bool List.
From S2P Require Import Prelude RangeWindow Sensor ScaleSpeed TransitSpec Speedometer System.
Open Scope Z_scope.

Module TransitRefinement.
Import Sensor ScaleSpeed TransitSpec Speedometer System.

Definition abs_sp (o : Speedometer) : AState :=
  match m_state o with
  | eClear => AIdle
  | eSenseA => ATiming ChA (m_sense_when o)
  | eSenseB => ATiming ChB (m_sense_when o)
  | eUpdated => if m_updated o then AReport (m_speed o) else ABusy
  | eActive | eClearing => ABusy
  end.

Definition abs (s : System) : AState := abs_sp (sp s).

(** What the machine sees at a tick: its detections at time [t]. *)
Definition obs_of (o : Speedometer) (t : Z) : Obs :=
  mkObs (m_detA o) (m_detB o) t (m_scale o) (m_metric o).

Definition label (s : System) (e : Event) : Label :=
  match e with
  | Tick i =>
      if gate i then
        match trigger_phase s i with
        | Some s1 => LTick (obs_of (sp s1) (now i))
        | None => LSilent
        end
      else LSilent
  | ReadUpdated | ReadSpeed => LRead
  | _ => LSilent
  end.

#[export] Instance speedometer_transit : TransitTimer System Event :=
  {| tt_exec := exec; tt_abs := abs; tt_label := label |}.

(** ** Lemmas *)

(** Close a goal [spec_step] whose two states and observation are
    computed: the rule is determined by the two states. *)
Ltac spec_rule :=
  first [ constructor; reflexivity
        | apply (sp_timing_close _ ChA); reflexivity
        | apply (sp_timing_close _ ChB); reflexivity
        | apply (sp_timing_abandon _ ChA); [reflexivity | assumption]
        | apply (sp_timing_abandon _ ChB); [reflexivity | assumption]
        | constructor ].

(** Prove that the branch [step] of the state [st] refines the
    contract: fix the state, case on the detections and the tests. *)
Ltac branch_refines step :=
  let st := fresh "st" in
  intros o t Hs; destruct o as [sw v sc w m st dA dB tr up]; simpl in Hs; subst st;
  unfold abs_sp, obs_of, step; unfold set_state, set_speed, set_sense_when, set_updated;
  destruct dA, dB; cbn -[calcScaleSpeed wrap TIMEOUT_2ND TIMEOUT_CLEAR];
  split_ifs; cbn -[calcScaleSpeed wrap TIMEOUT_2ND]; rewrite ?andb_false_r; spec_rule.

Lemma step_clear_refines : forall o t, m_state o = eClear ->
  spec_step TIMEOUT_2ND (abs_sp o) (obs_of o t) (abs_sp (step_clear o t)).
Proof. branch_refines step_clear. Qed.

Lemma step_senseA_refines : forall o t, m_state o = eSenseA ->
  spec_step TIMEOUT_2ND (abs_sp o) (obs_of o t) (abs_sp (step_senseA o t)).
Proof. branch_refines step_senseA. Qed.

Lemma step_senseB_refines : forall o t, m_state o = eSenseB ->
  spec_step TIMEOUT_2ND (abs_sp o) (obs_of o t) (abs_sp (step_senseB o t)).
Proof. branch_refines step_senseB. Qed.

Lemma step_updated_refines : forall o t, m_state o = eUpdated ->
  spec_step TIMEOUT_2ND (abs_sp o) (obs_of o t) (abs_sp (step_updated o)).
Proof.
  intros o t Hs; destruct o as [sw v sc w m st dA dB tr up]; simpl in Hs; subst st.
  destruct up; constructor.
Qed.

Lemma step_active_refines : forall o t, m_state o = eActive ->
  spec_step TIMEOUT_2ND (abs_sp o) (obs_of o t) (abs_sp (step_active o t)).
Proof. branch_refines step_active. Qed.

Lemma step_clearing_refines : forall o t, m_state o = eClearing ->
  spec_step TIMEOUT_2ND (abs_sp o) (obs_of o t) (abs_sp (step_clearing o t)).
Proof. branch_refines step_clearing. Qed.

(** One transition of the state machine is one step of the contract on
    the detections it holds. *)
Lemma fsm_step_refines (o : Speedometer) (t : Z) :
  spec_step TIMEOUT_2ND (abs_sp o) (obs_of o t) (abs_sp (fsm_step o t)).
Proof.
  unfold fsm_step. destruct (m_state o) eqn:Hs;
    eauto using step_clear_refines, step_senseA_refines, step_senseB_refines,
      step_updated_refines, step_active_refines, step_clearing_refines.
Qed.

(** The readers consume a pending report. *)
Lemma abs_consume (o : Speedometer) :
  abs_sp (set_updated o false) = spec_read (abs_sp o).
Proof. destruct o as [? ? ? ? ? [] ? ? ? []]; reflexivity. Qed.

Lemma abs_trigger_phase (s s1 : System) (i : TickInput) :
  trigger_phase s i = Some s1 -> abs_sp (sp s1) = abs_sp (sp s).
Proof.
  intros H. destruct (trigger_phase_keeps _ _ _ H) as (E1 & E2 & E3 & E4 & _).
  unfold abs_sp. rewrite E1, E2, E3, E4. reflexivity.
Qed.

(** The refinement law: every call of the program is a step of the
    contract on the label it exposes. *)
Lemma exec_refines (s s' : System) (e : Event) :
  exec s e = Some s' -> spec_lstep TIMEOUT_2ND (abs s) (label s e) (abs s').
Proof.
  destruct e; simpl; intros H.
  - unfold update in H. destruct (gate i); simpl in H.
    + destruct (trigger_phase s i) as [s1|] eqn:Et; [|discriminate].
      injection H as <-. unfold abs. simpl. rewrite <- (abs_trigger_phase _ _ _ Et).
      constructor. apply fsm_step_refines.
    + injection H as <-. constructor.
  - injection H as <-. constructor.
  - injection H as <-. constructor.
  - injection H as <-. unfold abs, isUpdated; simpl.
    destruct (m_updated (sp s)) eqn:Eu; simpl.
    + rewrite abs_consume. constructor.
    + replace (abs_sp (sp s)) with (spec_read (abs_sp (sp s))) at 2;
        [constructor|].
      unfold abs_sp; destruct (m_state (sp s)); rewrite ?Eu; reflexivity.
  - injection H as <-. unfold abs, getSpeed; simpl. rewrite abs_consume. constructor.
  - injection H as <-. constructor.
  - injection H as <-. constructor.
  - injection H as <-. constructor.
  - unfold inWindow in H. destruct (m_window (sp s)); [|discriminate].
    destruct (RangeWindow.within r0 (u8 r)). injection H as <-. constructor.
Qed.

#[export] Instance speedometer_transit_ok : TransitTimerOk System Event TIMEOUT_2ND.
Proof. constructor. intros s e s'. exact (exec_refines s s' e). Qed.

(** ** Properties *)

(** C3: refinement.  Every run of the program from its constructor's
    state, any interleaving of ticks, interrupts, reader and setter
    calls, is a run of the transit timer's contract from idle on the
    labels the calls expose, ending in the abstraction of the final
    state. *)
Theorem run_refines (sc : E_Scale) (es : list Event) (s' : System) (ls : list Label) :
  tt_run (init sc) es = Some (s', ls) -> spec_run TIMEOUT_2ND AIdle ls (abs s').
Proof. intros H. exact (tt_run_refines _ _ _ _ H). Qed.

Lemma run_refines_witness :
  exists s' ls, tt_run (init eJP) [IsrA; Tick (mkTick true 0 0 0 None None)] = Some (s', ls) /\
    spec_run TIMEOUT_2ND AIdle ls (abs s').
Proof.
  destruct (tt_run (init eJP) [IsrA; Tick (mkTick true 0 0 0 None None)])
    as [[s' ls]|] eqn:E; [|vm_compute in E; discriminate E].
  exists s', ls. split; [reflexivity | exact (run_refines _ _ _ _ E)].
Defined.

(** C4: the measurement contract for the reader.  Whenever, after any
    run from the constructor's state, [isUpdated()] would answer true, the
    speed [getSpeed()] returns was measured on that run: some tick opened
    an interval on which one channel alone detected, a later tick saw the
    other channel detect, and the speed is [calcScaleSpeed] of the uint32
    difference of their [millis()] values, with the scale and units in
    force at the later tick. *)
Theorem report_origin (sc : E_Scale) (es : list Event) (s' : System) (ls : list Label) :
  tt_run (init sc) es = Some (s', ls) ->
  snd (isUpdated (sp s')) = true -> m_state (sp s') = eUpdated ->
  reported_in ls (snd (getSpeed (sp s'))).
Proof.
  intros Hrun Hu Hs. apply (tt_report_origin (init sc) es s' ls); [reflexivity | exact Hrun|].
  simpl. unfold abs, abs_sp, isUpdated in *. rewrite Hs.
  destruct (m_updated (sp s')); [reflexivity | discriminate Hu].
Qed.

Lemma report_origin_witness :
  exists s' ls, tt_run (init eJP) (passage 200 220 240) = Some (s', ls) /\
    snd (isUpdated (sp s')) = true /\ m_state (sp s') = eUpdated /\
    reported_in ls (snd (getSpeed (sp s'))).
Proof.
  assert (H : option_map (fun r => (snd (isUpdated (sp (fst r))), m_state (sp (fst r))))
                (tt_run (init eJP) (passage 200 220 240)) = Some (true, eUpdated))
    by (vm_compute; reflexivity).
  destruct (tt_run (init eJP) (passage 200 220 240)) as [[s' ls]|] eqn:E;
    [|discriminate H].
  injection H as Hu Hs. exists s', ls.
  split; [reflexivity | split; [exact Hu | split; [exact Hs|]]].
  exact (report_origin _ _ _ _ E Hu Hs).
Defined.

End TransitRefinement.
