(* ===== verification/Timeouts.v ===== *)
(** * Termination of the waiting states

    Each waiting state of [Speedometer::update()] (SenseA, SenseB,
    Clearing) is left by a timeout, Active and a consumed Updated are left
    at the next tick, so with no detection the machine returns to Clear.
    The sketch calls [update()] from [loop()] and the base class
    [StateMachine] lets it run every [dt] ms; the model is the list of
    [millis()] values of the ticks, [u32 (T + k * dt)] for the true times
    [T + k * dt], and [fsm_ticks] the transitions at those ticks with the
    detections unchanged (no channel sees anything).

    The proof follows a deadline: for each state and the true time [S] of
    its time mark, [deadline] is a true time by which the last tick must
    come for Clear to be reached; one tick never raises it.  A pending
    report (Updated with the flag raised) waits for the reader without
    bound and is excluded.

    [fsm_trace] runs the transitions along a schedule of ticks, each with
    the detections the read phase left; it shows that a second detection
    inside the timeout is always measured. *)

From stdpp Require Import base list.
From Stdlib Require Import ZArith QArith Lia Bool.
From S2P Require Import Prelude ScaleSpeed Speedometer.
Open Scope Z_scope.

Module Timeouts.
Import ScaleSpeed Speedometer.

(** The [millis()] values of [n] ticks every [dt] ms from true time [T]. *)
Definition ticks (T dt : Z) (j n : nat) : list Z :=
  map (fun k => u32 (T + Z.of_nat k * dt)) (seq j n).

(** The transitions at the given [millis()] values. *)
Definition fsm_ticks (o : Speedometer) (ts : list Z) : Speedometer :=
  fold_left fsm_step ts o.

(** The detections the read phase leaves in the object (lines 95-96). *)
Definition set_dets (o : Speedometer) (dA dB : bool) : Speedometer :=
  {| m_sense_when := m_sense_when o; m_speed := m_speed o; m_scale := m_scale o;
     m_window := m_window o; m_metric := m_metric o; m_state := m_state o;
     m_detA := dA; m_detB := dB; m_triggered := m_triggered o;
     m_updated := m_updated o |}.

(** The transitions along a schedule of ticks: the true time of each
    tick and the detections the read phase produced for it. *)
Definition fsm_trace (o : Speedometer) (obs : list (Z * bool * bool)) : Speedometer :=
  fold_left (fun o '(t, dA, dB) => fsm_step (set_dets o dA dB) (u32 t)) obs o.

(** No detection, and no report pending for the reader. *)
Definition idle_obj (o : Speedometer) : Prop :=
  m_detA o = false /\ m_detB o = false /\ (m_state o = eUpdated -> m_updated o = false).

Section Deadline.
Context (dt : Z).

(** The true time by which a tick must come for Clear to be reached,
    from the state of [o] at true time [tau], [S] being the true time of
    its time mark. *)
Definition deadline (o : Speedometer) (S tau : Z) : Z :=
  match m_state o with
  | eClear => tau - dt
  | eClearing => Z.max tau (S + TIMEOUT_CLEAR + dt)
  | eActive => tau + TIMEOUT_CLEAR + dt
  | eUpdated => tau + TIMEOUT_CLEAR + 2 * dt
  | eSenseA | eSenseB => Z.max tau (S + TIMEOUT_2ND + dt) + TIMEOUT_CLEAR + 2 * dt
  end.

End Deadline.

(** ** Lemmas *)

Lemma fsm_ticks_app (o : Speedometer) (ts1 ts2 : list Z) :
  fsm_ticks o (ts1 ++ ts2) = fsm_ticks (fsm_ticks o ts1) ts2.
Proof. unfold fsm_ticks. apply fold_left_app. Qed.

Lemma ticks_S (T dt : Z) (j n : nat) :
  ticks T dt j (S n) = u32 (T + Z.of_nat j * dt) :: ticks T dt (S j) n.
Proof. reflexivity. Qed.

(** The transition does not change the detections. *)
Lemma fsm_step_dets (o : Speedometer) (t : Z) :
  m_detA (fsm_step o t) = m_detA o /\ m_detB (fsm_step o t) = m_detB o.
Proof. unfold_fsm. destruct (m_state o); split_ifs; cbn; auto. Qed.

(** Clear with no detection is a fixed point. *)
Lemma fsm_ticks_clear (o : Speedometer) (ts : list Z) :
  m_state o = eClear -> m_detA o = false -> m_detB o = false -> fsm_ticks o ts = o.
Proof.
  intros Hs HA HB. induction ts as [|t ts IH]; [reflexivity|].
  cbn [fsm_ticks fold_left]. unfold_fsm. rewrite Hs, HA, HB. exact IH.
Qed.

Section Step.
Context (dt : Z) (Hdt : 0 < dt).

(** One tick at true time [tau] from an idle object other than Clear:
    either Clear is reached, or the object stays idle, its new time mark
    has a true time between the old one and [tau], and the deadline seen
    from the next tick is not later. *)
Lemma idle_step (o : Speedometer) (S tau : Z) :
  idle_obj o -> m_sense_when o = u32 S -> S <= tau -> tau - S < 2 ^ 32 ->
  let o' := fsm_step o (u32 tau) in
  m_state o' = eClear \/
  exists S', idle_obj o' /\ m_sense_when o' = u32 S' /\ S <= S' <= tau /\
    deadline dt o' S' (tau + dt) <= deadline dt o S tau.
Proof.
  intros (HA & HB & Hu) Hw HS Hlt.
  destruct o as [sw v sc w m st dA dB tr up]; simpl in *; subst sw dA dB.
  destruct st; [left; reflexivity| | | | |];
    [| | specialize (Hu eq_refl); subst up | |];
    unfold_fsm; unfold idle_obj, deadline; simpl;
    rewrite ?wrap_sub_wrap by lia; split_ifs; simpl; unfold TIMEOUT_CLEAR, TIMEOUT_2ND in *;
    first [ left; reflexivity
          | right; exists S; simpl; repeat split; auto; try lia; intros; discriminate
          | right; exists tau; simpl; repeat split; auto; try lia; intros; discriminate ].
Qed.

(** The ticks from index [j] on reach Clear when the last of them comes
    no earlier than the deadline, and no later than 2^32 ms after the
    time mark. *)
Lemma idle_reaches_clear (T : Z) (n j : nat) (o : Speedometer) (S : Z) :
  idle_obj o -> m_sense_when o = u32 S -> S <= T + Z.of_nat j * dt ->
  deadline dt o S (T + Z.of_nat j * dt) <= T + (Z.of_nat j + Z.of_nat n - 1) * dt ->
  T + (Z.of_nat j + Z.of_nat n - 1) * dt - S < 2 ^ 32 ->
  m_state (fsm_ticks o (ticks T dt j n)) = eClear.
Proof.
  revert j o S; induction n as [|n IH]; intros j o S Hi Hw HS Hd Hlt.
  - unfold deadline in Hd. destruct (m_state o) eqn:Es; [exact Es| | | | |];
      exfalso; unfold TIMEOUT_CLEAR, TIMEOUT_2ND in Hd; lia.
  - destruct (decide (m_state o = eClear)) as [Ec|Ec].
    + destruct Hi as (HA & HB & _). rewrite fsm_ticks_clear; assumption.
    + rewrite ticks_S. change (fsm_ticks o (?t :: ?ts)) with (fsm_ticks (fsm_step o t) ts).
      pose proof Hi as (HA & HB & _).
      destruct (idle_step o S (T + Z.of_nat j * dt)) as [Hc | (S' & Hi' & Hw' & HS' & Hd')];
        try assumption; [rewrite Nat2Z.inj_succ in Hlt; nia | |].
      * destruct (fsm_step_dets o (u32 (T + Z.of_nat j * dt))) as [EA EB].
        rewrite fsm_ticks_clear; [exact Hc | exact Hc | congruence | congruence].
      * rewrite Nat2Z.inj_succ in Hd, Hlt.
        apply (IH (Datatypes.S j) _ S'); try assumption; rewrite ?Nat2Z.inj_succ;
          [nia | | nia].
        replace (T + Z.succ (Z.of_nat j) * dt) with (T + Z.of_nat j * dt + dt) by ring. nia.
Qed.

End Step.

Lemma fsm_trace_cons (o : Speedometer) (t : Z) (dA dB : bool) (l : list (Z * bool * bool)) :
  fsm_trace o ((t, dA, dB) :: l) = fsm_trace (fsm_step (set_dets o dA dB) (u32 t)) l.
Proof. reflexivity. Qed.

Lemma fsm_trace_app (o : Speedometer) (l1 l2 : list (Z * bool * bool)) :
  fsm_trace o (l1 ++ l2) = fsm_trace (fsm_trace o l1) l2.
Proof. apply fold_left_app. Qed.

Lemma fsm_trace_one (o : Speedometer) (t : Z) (dA dB : bool) :
  fsm_trace o [(t, dA, dB)] = fsm_step (set_dets o dA dB) (u32 t).
Proof. reflexivity. Qed.

(** Waiting in SenseA: ticks on which B does not detect, within the
    second-sensor timeout of the time mark, change nothing but the
    detections. *)
Lemma senseA_waits (o : Speedometer) (t0 : Z) (mids : list (Z * bool * bool)) :
  m_state o = eSenseA -> m_sense_when o = u32 t0 ->
  Forall (fun '(t, dA, dB) => dB = false /\ t0 <= t <= t0 + TIMEOUT_2ND) mids ->
  m_state (fsm_trace o mids) = eSenseA /\ m_sense_when (fsm_trace o mids) = u32 t0 /\
  m_scale (fsm_trace o mids) = m_scale o /\ m_metric (fsm_trace o mids) = m_metric o.
Proof.
  intros Hs Hw Hall. revert o Hs Hw.
  induction Hall as [|[[t dA] dB] mids [-> Ht] _ IH]; intros o Hs Hw; [auto|].
  rewrite fsm_trace_cons.
  destruct o as [sw v sc w m st a b tr up]; simpl in Hs, Hw; subst st sw.
  unfold_fsm; unfold set_dets; simpl.
  rewrite wrap_sub_wrap by (unfold TIMEOUT_2ND in *; lia).
  rewrite (proj2 (Z.ltb_ge TIMEOUT_2ND (t - t0))) by lia.
  apply IH; reflexivity.
Qed.

(** ** Properties *)

(** C12: termination of the waiting states.  With no detection on
    either channel and no report pending for the reader, ticks every
    [dt > 0] ms from true time [T] bring the machine back to Clear from
    any state, once the last tick comes at least [TIMEOUT_CLEAR + 2 dt]
    ms after the later of [T] and the second-sensor deadline
    [S + TIMEOUT_2ND + dt] ([S] the true time of the time mark), and
    within 2^32 ms of [S].  Both timeouts are measured on the wrapped
    [millis()] values, so this holds across a wrap-around: with ticks
    every 10 ms a lone detection is cleared within 4700 ticks. *)
Theorem quiet_returns_to_clear (o : Speedometer) (S T dt : Z) (N : nat) :
  idle_obj o -> 0 < dt -> m_sense_when o = u32 S -> S <= T ->
  Z.max T (S + TIMEOUT_2ND + dt) + TIMEOUT_CLEAR + 2 * dt <= T + (Z.of_nat N - 1) * dt ->
  T + (Z.of_nat N - 1) * dt - S < 2 ^ 32 ->
  m_state (fsm_ticks o (ticks T dt 0 N)) = eClear.
Proof.
  intros Hi Hdt Hw HS Hb Hlt.
  apply (idle_reaches_clear dt Hdt T N 0 o S); simpl; try assumption; try lia.
  unfold deadline. unfold TIMEOUT_CLEAR, TIMEOUT_2ND in *.
  destruct (m_state o); lia.
Qed.

(** An interval opened by sensor A 5 ms before [millis()] wraps is
    abandoned and cleared within 4700 ticks of 10 ms. *)
Lemma quiet_returns_to_clear_witness :
  let o := {| m_sense_when := 2 ^ 32 - 5; m_speed := Finite 0%Q; m_scale := eJP;
              m_window := None; m_metric := true; m_state := eSenseA;
              m_detA := false; m_detB := false; m_triggered := false;
              m_updated := false |} in
  idle_obj o /\ m_state (fsm_ticks o (ticks (2 ^ 32 - 5) 10 0 4700)) = eClear.
Proof.
  intros o. assert (Hi : idle_obj o) by (repeat split; intros; discriminate).
  split; [exact Hi|].
  apply (quiet_returns_to_clear o (2 ^ 32 - 5) (2 ^ 32 - 5) 10 4700); try assumption;
    try reflexivity; unfold TIMEOUT_CLEAR, TIMEOUT_2ND; lia.
Defined.

(** C13: a second detection within the timeout is always measured.  From
    Clear, a tick at true time [t0] on which A alone detects, any ticks on
    which B does not detect within [TIMEOUT_2ND] ms of [t0] (A may go on
    detecting), and a tick at [t1] on which B detects, with
    [t1 - t0 <= TIMEOUT_2ND]: the machine ends in Updated with the flag
    raised and the speed of the true interval [t1 - t0], across a
    wrap-around of [millis()]. *)
Theorem second_detection_measured (o : Speedometer) (t0 t1 : Z) (dA1 : bool)
    (mids : list (Z * bool * bool)) :
  m_state o = eClear ->
  Forall (fun '(t, dA, dB) => dB = false /\ t0 <= t <= t0 + TIMEOUT_2ND) mids ->
  t0 <= t1 <= t0 + TIMEOUT_2ND ->
  let o' := fsm_trace o ((t0, true, false) :: mids ++ [(t1, dA1, true)]) in
  m_state o' = eUpdated /\ m_updated o' = true /\
  m_speed o' = calcScaleSpeed (m_scale o) (m_metric o) (t1 - t0).
Proof.
  intros Hs Hall Ht1 o'. subst o'.
  rewrite fsm_trace_cons, fsm_trace_app, fsm_trace_one.
  assert (E1 : let o1 := fsm_step (set_dets o true false) (u32 t0) in
               m_state o1 = eSenseA /\ m_sense_when o1 = u32 t0 /\
               m_scale o1 = m_scale o /\ m_metric o1 = m_metric o).
  { destruct o as [sw v sc w m st a b tr up]; simpl in Hs; subst st. auto. }
  destruct E1 as (S1 & W1 & C1 & M1).
  destruct (senseA_waits _ t0 mids S1 W1 Hall) as (S2 & W2 & C2 & M2).
  revert S2 W2 C2 M2. rewrite <- C1, <- M1.
  generalize (fsm_trace (fsm_step (set_dets o true false) (u32 t0)) mids).
  intros [sw v sc w m st a b tr up] S2 W2 C2 M2; simpl in *; subst st sw sc m.
  unfold_fsm; unfold set_dets; simpl.
  rewrite wrap_sub_wrap by (unfold TIMEOUT_2ND in *; lia).
  auto.
Qed.

(** The spec's scenario: A at 100 ms, B at 300 ms, 1:150 metric: 342.9 km/h. *)
Lemma second_detection_measured_witness :
  let o := make_speedometer eJP in
  m_state o = eClear /\ (100 <= 300 <= 100 + TIMEOUT_2ND) /\
  m_speed (fsm_trace o [(100, true, false); (200, true, false); (300, false, true)]) =
    calcScaleSpeed eJP true 200 /\
  deq (calcScaleSpeed eJP true 200) (Finite (3429 # 10)).
Proof.
  intros o. assert (Hs : m_state o = eClear) by reflexivity.
  assert (Ht : 100 <= 300 <= 100 + TIMEOUT_2ND) by (unfold TIMEOUT_2ND; lia).
  assert (Hall : Forall (fun '(t, dA, dB) => dB = false /\ 100 <= t <= 100 + TIMEOUT_2ND)
                   [(200, true, false)]) by (repeat constructor; unfold TIMEOUT_2ND; lia).
  split; [exact Hs | split; [exact Ht | split]].
  - exact (proj2 (proj2 (second_detection_measured o 100 300 false [(200, true, false)] Hs Hall Ht))).
  - vm_compute. reflexivity.
Defined.

End Timeouts.
